(** * explore_firestore.py: the Firestore explorer, embedded and verified

    The script connects to Firestore, prints sample documents of a few
    collections, looks for an orders-like collection under a fixed list of
    names and writes the list of all collection names to a JSON file.

    The embedding threads one [World] (the process and its surroundings)
    through a state-and-exception monad; the database is an oracle whose
    answer may depend on every call made before, and whose every call may
    raise.

    What is taken for granted: a document of a query result exists, so
    [to_dict] gives a dict (possibly empty); with a valid certificate
    [initialize_app] and [firestore.client] succeed, a rejected login shows
    as an error of the first query; [print] and the write of the output
    file do not fail. *)

From Stdlib Require Import List String Ascii ZArith Lia Bool Arith DecimalString.
Import ListNotations.
Open Scope string_scope.

Set Warnings "-register-all".

(** ** Python strings

    One [ascii] stands for one character of a Python [str]; [length] is
    [len] and [substring 0 n] is the slice [[:n]].  Characters are read as
    the code points 0..255.  The emoji of the literal messages are kept as
    the bytes of the source file; no length of such a literal is ever
    taken. *)

Definition nl : string := String (ascii_of_nat 10) "".

Definition str_nat (n : nat) : string := NilZero.string_of_uint (Nat.to_uint n).
Definition str_int (n : Z) : string := NilZero.string_of_int (Z.to_int n).

(** [s * n] *)
Fixpoint str_mul (s : string) (n : nat) : string :=
  match n with
  | O => ""
  | S n' => s ++ str_mul s n'
  end.

Fixpoint str_contains (c : ascii) (s : string) : bool :=
  match s with
  | EmptyString => false
  | String c' s' => Ascii.eqb c c' || str_contains c s'
  end.

Definition hex_digit (n : nat) : ascii :=
  if (n <? 10)%nat then ascii_of_nat (48 + n) else ascii_of_nat (87 + n).

(** two lowercase hexadecimal digits of a code point below 256 *)
Definition hex2 (c : ascii) : string :=
  let n := nat_of_ascii c in
  String (hex_digit (n / 16)) (String (hex_digit (n mod 16)) "").

(** [str.isprintable] on one character, for the code points 0..255: the
    controls, DEL, U+0080..U+00A0 and the soft hyphen U+00AD are not. *)
Definition printable (c : ascii) : bool :=
  let n := nat_of_ascii c in
  ((32 <=? n) && (n <? 127) || (161 <=? n) && negb (n =? 173))%nat.

Definition backslash : ascii := ascii_of_nat 92.
Definition squote : ascii := ascii_of_nat 39.
Definition dquote : ascii := ascii_of_nat 34.

Fixpoint repr_chars (quote : ascii) (s : string) : string :=
  match s with
  | EmptyString => ""
  | String c s' =>
      let n := nat_of_ascii c in
      (if Ascii.eqb c quote || Ascii.eqb c backslash then String backslash (String c "")
       else if (n =? 9)%nat then String backslash "t"
       else if (n =? 10)%nat then String backslash "n"
       else if (n =? 13)%nat then String backslash "r"
       else if printable c then String c ""
       else String backslash ("x" ++ hex2 c))
      ++ repr_chars quote s'
  end.

(** [repr] of a [str]: single quotes, unless the text holds a single quote
    and no double quote. *)
Definition repr_str (s : string) : string :=
  let quote := if str_contains squote s && negb (str_contains dquote s)
               then dquote else squote in
  String quote (repr_chars quote s ++ String quote "").

(** ** Documents

    A field value is what [to_dict] hands back.  A dict is an association
    list in insertion order (its keys are distinct); a value of any other
    class (float, timestamp, reference, ...) is carried by the three things
    the script observes of it: its class name, its [repr] and its [str]. *)

Inductive Value : Type :=
| VNone
| VBool (b : bool)
| VInt (n : Z)
| VStr (s : string)
| VList (items : list Value)
| VDict (entries : list (string * Value))
| VOther (class_name repr_text str_text : string).

Record Document : Type := mkDocument {
  id : string;                      (* doc.id *)
  data : list (string * Value)      (* doc.to_dict() of a query snapshot *)
}.

(** [type(value).__name__] *)
Definition type_name (value : Value) : string :=
  match value with
  | VNone => "NoneType"
  | VBool _ => "bool"
  | VInt _ => "int"
  | VStr _ => "str"
  | VList _ => "list"
  | VDict _ => "dict"
  | VOther c _ _ => c
  end.

Fixpoint py_repr (value : Value) : string :=
  match value with
  | VNone => "None"
  | VBool b => if b then "True" else "False"
  | VInt n => str_int n
  | VStr s => repr_str s
  | VList items => "[" ++ String.concat ", " (map py_repr items) ++ "]"
  | VDict entries =>
      "{" ++ String.concat ", "
               (map (fun kv => let '(k, v) := kv in repr_str k ++ ": " ++ py_repr v)
                    entries) ++ "}"
  | VOther _ r _ => r
  end.

(** [str(value)], which is what an f-string field and [print] show *)
Definition py_str (value : Value) : string :=
  match value with
  | VStr s => s
  | VOther _ _ s => s
  | _ => py_repr value
  end.

(** [field in data] and [data[field]] *)
Fixpoint dict_get (field : string) (d : list (string * Value)) : option Value :=
  match d with
  | [] => None
  | (k, v) :: d' => if String.eqb field k then Some v else dict_get field d'
  end.

(** ** The value shown by explore_collection_structure (lines 55-66) *)

Definition display_value (value : Value) : Value :=
  match value with
  | VStr s =>
      if (100 <? length s)%nat
      then VStr (substring 0 50 s ++ "...(" ++ str_nat (length s) ++ " chars)")
      else value
  | VList items =>
      if (3 <? List.length items)%nat
      then VStr ("[" ++ str_nat (List.length items) ++ " items: "
                     ++ py_repr (VList (firstn 2 items)) ++ "...]")
      else value
  | VDict entries =>
      if (5 <? List.length entries)%nat
      then let keys := firstn 3 (map fst entries) in
           VStr ("{" ++ str_nat (List.length entries) ++ " keys: "
                     ++ py_repr (VList (map VStr keys)) ++ "...}")
      else value
  | _ => value
  end.

Definition field_line (key : string) (value : Value) : string :=
  "  " ++ key ++ ": (" ++ type_name value ++ ") " ++ py_str (display_value value).

(** ** The world around the script

    What a run can observe and change: the credential file, the default app
    of firebase_admin (process-wide), the queries sent to the database, the
    text printed and the output file. *)

(** Exceptions: [ValueError] is told apart because init_firestore catches
    it by class; [Exception] is any other subclass of Exception. *)
Inductive exn : Type :=
| ValueError (msg : string)
| Exception (msg : string).

Definition exn_msg (e : exn) : string :=
  match e with
  | ValueError msg => msg
  | Exception msg => msg
  end.

(** What is found at [cred_path].  Something that cannot be loaded comes
    with the error credentials.Certificate raises on it: a ValueError for a
    file that is no certificate, another error (an OSError) for a path that
    cannot be read. *)
Inductive CredFile : Type :=
| CredMissing                      (* os.path.exists is False *)
| CredInvalid (e : exn)            (* credentials.Certificate raises e *)
| CredValid.

(** Steps of authentication, as they happen *)
Inductive AuthEvent : Type :=
| PathChecked                      (* os.path.exists(cred_path) *)
| CertificateRead                  (* credentials.Certificate(cred_path) *)
| AppInitialized (session : nat).  (* firebase_admin.initialize_app(cred) *)

(** Requests sent to the database service *)
Inductive Call : Type :=
| Get (collection_name : string) (limit : nat)   (* db.collection(name).limit(n).get() *)
| Collections.                                   (* db.collections() *)

(** [firestore.client()]: the client of one app *)
Inductive Handle : Type :=
| Client (session : nat).

Record World : Type := mkWorld {
  cred_file : CredFile;
  app : option nat;              (* the default app, numbered by creation *)
  auth_log : list AuthEvent;     (* oldest first *)
  calls : list Call;             (* oldest first *)
  stdout : list string;          (* one entry per print, oldest first *)
  out_file : option string       (* firestore_collections.json, None when absent *)
}.

Inductive result (A : Type) : Type :=
| Ok (a : A)
| Raise (e : exn).

Arguments Ok {A} a.
Arguments Raise {A} e.

(** The database service: each answer may depend on the calls made before
    (oldest first), and each call may raise. *)
Record Service : Type := mkService {
  query_get : list Call -> string -> nat -> result (list Document);
  list_collections : list Call -> result (list string)
}.

(** ** State and exceptions *)

Definition M (A : Type) : Type := World -> result A * World.

Definition ret {A} (a : A) : M A := fun w => (Ok a, w).

Definition raise {A} (e : exn) : M A := fun w => (Raise e, w).

Definition bind {A B} (m : M A) (k : A -> M B) : M B :=
  fun w =>
    match m w with
    | (Ok a, w') => k a w'
    | (Raise e, w') => (Raise e, w')
    end.

(** [try: m  except Exception as e: h e] *)
Definition try_except {A} (m : M A) (h : exn -> M A) : M A :=
  fun w =>
    match m w with
    | (Ok a, w') => (Ok a, w')
    | (Raise e, w') => h e w'
    end.

(** [try: m  except ValueError: h] *)
Definition try_except_ValueError {A} (m : M A) (h : M A) : M A :=
  fun w =>
    match m w with
    | (Raise (ValueError _), w') => h w'
    | r => r
    end.

Declare Scope py_scope.
Delimit Scope py_scope with py.
Notation "x <- m ;; k" := (bind m (fun x => k))
  (at level 100, m at next level, right associativity) : py_scope.
Notation "m ;; k" := (bind m (fun _ => k))
  (at level 100, right associativity) : py_scope.
Open Scope py_scope.

Fixpoint for_each {A} (l : list A) (body : A -> M unit) : M unit :=
  match l with
  | [] => ret tt
  | x :: l' => body x ;; for_each l' body
  end.

(** [enumerate(l, start)] *)
Fixpoint enumerate {A} (l : list A) (start : nat) : list (nat * A) :=
  match l with
  | [] => []
  | x :: l' => (start, x) :: enumerate l' (S start)
  end.

Definition print (line : string) : M unit :=
  fun w => (Ok tt, mkWorld (cred_file w) (app w) (auth_log w) (calls w)
                           (stdout w ++ [line]) (out_file w)).

Definition log_auth (ev : AuthEvent) : M unit :=
  fun w => (Ok tt, mkWorld (cred_file w) (app w) (auth_log w ++ [ev]) (calls w)
                           (stdout w) (out_file w)).

(** [firebase_admin.get_app()]: the default app, or ValueError *)
Definition get_app : M nat :=
  fun w =>
    match app w with
    | Some session => (Ok session, w)
    | None => (Raise (ValueError "The default Firebase app does not exist."), w)
    end.

(** [os.path.exists(cred_path)] *)
Definition path_exists : M bool :=
  log_auth PathChecked ;;
  fun w => (Ok (match cred_file w with CredMissing => false | _ => true end), w).

(** [credentials.Certificate(cred_path)] *)
Definition Certificate : M unit :=
  log_auth CertificateRead ;;
  fun w =>
    match cred_file w with
    | CredValid => (Ok tt, w)
    | CredInvalid e => (Raise e, w)
    | CredMissing => (Raise (Exception "No such file or directory"), w)
    end.

(** number of apps initialised so far *)
Definition sessions (log : list AuthEvent) : nat :=
  List.length (filter (fun ev => match ev with AppInitialized _ => true | _ => false end) log).

(** [firebase_admin.initialize_app(cred)]: registers a new default app, or
    ValueError when one exists *)
Definition initialize_app : M unit :=
  fun w =>
    match app w with
    | Some _ => (Raise (ValueError "The default Firebase app already exists."), w)
    | None =>
        let session := sessions (auth_log w) in
        (Ok tt, mkWorld (cred_file w) (Some session)
                        (auth_log w ++ [AppInitialized session]) (calls w)
                        (stdout w) (out_file w))
    end.

(** [firestore.client()]: the client of the default app *)
Definition client : M Handle :=
  session <- get_app ;; ret (Client session).

Definition write_file (content : string) : M unit :=
  fun w => (Ok tt, mkWorld (cred_file w) (app w) (auth_log w) (calls w)
                           (stdout w) (Some content)).

Definition cred_path : string := "/Users/eric/kasbah/kasbah/python/cred.json".

(** ** JSON, as [json.dump(names, f, indent=2)] writes a list of str *)

(** One character inside a JSON string (ensure_ascii is on): anything
    outside ' '..'~', the double quote and the backslash are escaped. *)
Definition json_char (c : ascii) : string :=
  let n := nat_of_ascii c in
  if Ascii.eqb c dquote || Ascii.eqb c backslash then String backslash (String c "")
  else if (n =? 8)%nat then String backslash "b"
  else if (n =? 12)%nat then String backslash "f"
  else if (n =? 10)%nat then String backslash "n"
  else if (n =? 13)%nat then String backslash "r"
  else if (n =? 9)%nat then String backslash "t"
  else if ((32 <=? n) && (n <=? 126))%nat then String c ""
  else String backslash ("u00" ++ hex2 c).

Fixpoint json_chars (s : string) : string :=
  match s with
  | EmptyString => ""
  | String c s' => json_char c ++ json_chars s'
  end.

Definition json_string (s : string) : string :=
  String dquote (json_chars s ++ String dquote "").

(** A list at nesting level 0 with indent 2: "[]" when empty, else one
    item per line, two spaces in front, a comma after all but the last. *)
Definition json_dump (names : list string) : string :=
  match names with
  | [] => "[]"
  | _ :: _ =>
      "[" ++ nl ++ "  "
          ++ String.concat ("," ++ nl ++ "  ") (map json_string names)
          ++ nl ++ "]"
  end.

(** Reading back a file of the layout above (a reader for what [json_dump]
    writes, not a full JSON parser).  [json_scan true] reads inside a
    string, [json_scan false] reads what follows a closing quote; the
    result lists the string being read and those after it. *)

Definition unhex (c : ascii) : option nat :=
  let n := nat_of_ascii c in
  if ((48 <=? n) && (n <=? 57))%nat then Some (n - 48)
  else if ((97 <=? n) && (n <=? 102))%nat then Some (n - 87)
  else None.

Definition push (c : ascii) (r : option (list string)) : option (list string) :=
  match r with
  | Some (item :: items) => Some (String c item :: items)
  | _ => None
  end.

Definition unescape (e : ascii) : option ascii :=
  let n := nat_of_ascii e in
  if Ascii.eqb e dquote || Ascii.eqb e backslash then Some e
  else if (n =? 98)%nat then Some (ascii_of_nat 8)
  else if (n =? 102)%nat then Some (ascii_of_nat 12)
  else if (n =? 110)%nat then Some (ascii_of_nat 10)
  else if (n =? 114)%nat then Some (ascii_of_nat 13)
  else if (n =? 116)%nat then Some (ascii_of_nat 9)
  else None.

Fixpoint json_scan (in_string : bool) (s : string) : option (list string) :=
  if in_string
  then match s with
       | EmptyString => None
       | String c rest =>
           if Ascii.eqb c dquote
           then option_map (cons EmptyString) (json_scan false rest)
           else if Ascii.eqb c backslash
           then match rest with
                | String e rest1 =>
                    if (nat_of_ascii e =? 117)%nat
                    then match rest1 with
                         | String z1 (String z2 (String h (String l rest2))) =>
                             match unhex z1, unhex z2, unhex h, unhex l with
                             | Some O, Some O, Some a, Some b =>
                                 push (ascii_of_nat (16 * a + b)) (json_scan true rest2)
                             | _, _, _, _ => None
                             end
                         | _ => None
                         end
                    else match unescape e with
                         | Some c' => push c' (json_scan true rest1)
                         | None => None
                         end
                | EmptyString => None
                end
           else push c (json_scan true rest)
       end
  else match s with
       | String c1 (String c2 EmptyString) =>
           if Ascii.eqb c1 (ascii_of_nat 10) && Ascii.eqb c2 "]" then Some [] else None
       | String c1 (String c2 (String c3 (String c4 (String c5 rest)))) =>
           if Ascii.eqb c1 "," && Ascii.eqb c2 (ascii_of_nat 10) && Ascii.eqb c3 " "
              && Ascii.eqb c4 " " && Ascii.eqb c5 dquote
           then json_scan true rest
           else None
       | _ => None
       end.

Definition json_load (s : string) : option (list string) :=
  if String.eqb s "[]" then Some []
  else match s with
       | String c1 (String c2 (String c3 (String c4 (String c5 rest)))) =>
           if Ascii.eqb c1 "[" && Ascii.eqb c2 (ascii_of_nat 10) && Ascii.eqb c3 " "
              && Ascii.eqb c4 " " && Ascii.eqb c5 dquote
           then json_scan true rest
           else None
       | _ => None
       end.

(** [push] for every character of [s], the last one first *)
Fixpoint push_all (s : string) (r : option (list string)) : option (list string) :=
  match s with
  | EmptyString => r
  | String c s' => push c (push_all s' r)
  end.

(** the dump from inside the first string on: the characters of [name],
    its closing quote, then the other names or the end of the array *)
Fixpoint items_text (name : string) (rest : list string) : string :=
  json_chars name
  ++ String dquote
       match rest with
       | [] => nl ++ "]"
       | next :: rest' => "," ++ nl ++ "  " ++ String dquote (items_text next rest')
       end.

(** ** What a step returns

    The steps return [[]], [None], a list of samples or a collection name. *)
Inductive PyRet : Type :=
| RNone
| RList (docs : list Document)
| RStr (s : string).

(** truth value, as [if orders_collection:] tests it *)
Definition truthy (r : PyRet) : bool :=
  match r with
  | RNone => false
  | RList docs => negb (Nat.eqb (List.length docs) 0)
  | RStr s => negb (Nat.eqb (length s) 0)
  end.

Definition collections_to_try : list string :=
  ["orders"; "Orders"; "order"; "purchase_orders"; "transactions"].

Definition order_fields : list string :=
  ["status"; "total"; "customerId"; "supplierId"; "buyerId";
   "created"; "createdAt"; "updated"; "updatedAt"; "items"].

Definition user_fields : list string :=
  ["email"; "name"; "role"; "type"; "companyName"; "created"; "createdAt"].

Definition product_fields : list string :=
  ["name"; "sku"; "price"; "category"; "supplierId"; "uom"; "description"].

(** [[f"{field}: {data[field]}" for field in fields if field in data]] *)
Definition found_fields (fields : list string) (d : list (string * Value)) : list string :=
  flat_map (fun field =>
              match dict_get field d with
              | Some value => [field ++ ": " ++ py_str value]
              | None => []
              end) fields.

(** the value a product field is printed with (lines 177-179) *)
Definition product_value (value : Value) : Value :=
  match value with
  | VStr s => if (100 <? length s)%nat then VStr (substring 0 50 s ++ "...") else value
  | _ => value
  end.

Section Explorer.

Variable svc : Service.

(** [db.collection(collection_name).limit(limit).get()] *)
Definition collection_get (db : Handle) (collection_name : string) (limit : nat)
  : M (list Document) :=
  fun w => (query_get svc (calls w) collection_name limit,
            mkWorld (cred_file w) (app w) (auth_log w)
                    (calls w ++ [Get collection_name limit]) (stdout w) (out_file w)).

(** [[col.id for col in db.collections()]] *)
Definition collection_ids (db : Handle) : M (list string) :=
  fun w => (list_collections svc (calls w),
            mkWorld (cred_file w) (app w) (auth_log w)
                    (calls w ++ [Collections]) (stdout w) (out_file w)).

(** lines 18-28; the inner result says whether the handler returned None *)
Definition init_firestore : M (option Handle) :=
  returned <- try_except_ValueError
                (get_app ;; ret false)
                (found <- path_exists ;;
                 if negb found
                 then (print ("❌ Credentials file not found at " ++ cred_path) ;;
                       ret true)
                 else (Certificate ;; initialize_app ;; ret false)) ;;
  if returned : bool then ret None else (db <- client ;; ret (Some db)).

(** the loop of lines 47-73, with the samples gathered so far *)
Fixpoint explore_docs (docs : list (nat * Document)) (sample_docs : list Document)
  : M (list Document) :=
  match docs with
  | [] => ret sample_docs
  | (i, doc) :: rest =>
      print (nl ++ "📄 Document " ++ str_nat i ++ " (ID: " ++ id doc ++ "):") ;;
      match data doc with
      | _ :: _ =>
          for_each (data doc) (fun kv => print (field_line (fst kv) (snd kv))) ;;
          explore_docs rest (sample_docs ++ [doc])
      | [] =>
          print "  (No data)" ;;
          explore_docs rest sample_docs
      end
  end.

(** lines 30-79 *)
Definition explore_collection_structure (collection_name : string) (limit : nat)
  : M PyRet :=
  print (nl ++ "🔍 Exploring '" ++ collection_name ++ "' collection...") ;;
  print (str_mul "=" 60) ;;
  try_except
    (db <- init_firestore ;;
     match db with
     | None => print "❌ Failed to initialize Firestore" ;; ret (RList [])
     | Some db =>
         docs <- collection_get db collection_name limit ;;
         print ("Found " ++ str_nat (List.length docs) ++ " documents in '"
                         ++ collection_name ++ "'") ;;
         sample_docs <- explore_docs (enumerate docs 1) [] ;;
         ret (RList sample_docs)
     end)
    (fun e =>
       print ("❌ Error exploring collection '" ++ collection_name ++ "': " ++ exn_msg e) ;;
       ret (RList [])).

(** lines 98-116: what is printed for an accepted candidate; only the
    first document is shown *)
Definition show_first_order (collection_name : string) (docs : list Document) : M unit :=
  print ("✅ Found orders in collection: '" ++ collection_name ++ "'") ;;
  match docs with
  | [] => ret tt
  | doc :: _ =>
      print ("  Order ID: " ++ id doc) ;;
      let found := found_fields order_fields (data doc) in
      match found with
      | [] => ret tt
      | _ :: _ => print ("    Key fields: " ++ String.concat ", " (firstn 3 found))
      end
  end.

(** the loop of lines 94-119 and what follows it (lines 121-122) *)
Fixpoint try_collections (db : Handle) (names : list string) : M PyRet :=
  match names with
  | [] =>
      print "❌ No orders collection found with standard names" ;;
      ret RNone
  | collection_name :: rest =>
      accepted <- try_except
                    (docs <- collection_get db collection_name 3 ;;
                     match docs with
                     | _ :: _ => show_first_order collection_name docs ;; ret true
                     | [] => ret false
                     end)
                    (fun e => ret false) ;;
      if accepted : bool then ret (RStr collection_name) else try_collections db rest
  end.

(** lines 81-126 *)
Definition find_orders_by_criteria : M PyRet :=
  print (nl ++ "🔍 Searching for orders...") ;;
  print (str_mul "=" 60) ;;
  try_except
    (db <- init_firestore ;;
     match db with
     | None => ret (RList [])
     | Some db => try_collections db collections_to_try
     end)
    (fun e => print ("❌ Error searching for orders: " ++ exn_msg e) ;; ret RNone).

(** lines 147-149 and 175-180: the whitelisted fields a document holds *)
Definition print_fields (fields : list string) (shown : Value -> Value)
                        (d : list (string * Value)) : M unit :=
  for_each fields
    (fun field =>
       match dict_get field d with
       | Some value => print ("  " ++ field ++ ": " ++ py_str (shown value))
       | None => ret tt
       end).

(** lines 128-152 *)
Definition explore_users_structure : M PyRet :=
  print (nl ++ "👥 Exploring users structure...") ;;
  print (str_mul "=" 60) ;;
  try_except
    (db <- init_firestore ;;
     match db with
     | None => ret (RList [])
     | Some db =>
         users <- collection_get db "users" 3 ;;
         for_each users
           (fun user =>
              print (nl ++ "👤 User ID: " ++ id user) ;;
              print_fields user_fields (fun value => value) (data user)) ;;
         ret RNone
     end)
    (fun e => print ("❌ Error exploring users: " ++ exn_msg e) ;; ret RNone).

(** lines 154-183 *)
Definition explore_products_structure : M PyRet :=
  print (nl ++ "📦 Exploring products structure...") ;;
  print (str_mul "=" 60) ;;
  try_except
    (db <- init_firestore ;;
     match db with
     | None => ret (RList [])
     | Some db =>
         products <- collection_get db "products" 5 ;;
         print ("Found " ++ str_nat (List.length products) ++ " products") ;;
         for_each (enumerate products 1)
           (fun ip =>
              print (nl ++ "📦 Product " ++ str_nat (fst ip)
                        ++ " (ID: " ++ id (snd ip) ++ "):") ;;
              print_fields product_fields product_value (data (snd ip))) ;;
         ret RNone
     end)
    (fun e => print ("❌ Error exploring products: " ++ exn_msg e) ;; ret RNone).

(** lines 203-220: the registry of collection names, printed and saved *)
Definition list_all_collections : M unit :=
  print (nl ++ "📋 Listing all collections...") ;;
  print (str_mul "=" 60) ;;
  try_except
    (db <- init_firestore ;;
     match db with
     | Some db =>
         collection_names <- collection_ids db ;;
         print ("Available collections: " ++ py_repr (VList (map VStr collection_names))) ;;
         write_file (json_dump collection_names) ;;
         print "Collection names saved to: firestore_collections.json"
     | None => ret tt
     end)
    (fun e => print ("❌ Error listing collections: " ++ exn_msg e)).

(** lines 196-197.  A truthy result of the discovery is a collection name. *)
Definition explore_orders (orders_collection : PyRet) : M unit :=
  if truthy orders_collection
  then match orders_collection with
       | RStr name => explore_collection_structure name 3 ;; ret tt
       | _ => ret tt
       end
  else ret tt.

(** lines 185-220 *)
Definition main : M unit :=
  print "🔍 FIRESTORE EXPLORATION" ;;
  print (str_mul "=" 80) ;;
  print "Exploring Firestore collections to understand data structure for API..." ;;
  explore_users_structure ;;
  orders_collection <- find_orders_by_criteria ;;
  explore_orders orders_collection ;;
  explore_products_structure ;;
  list_all_collections.

End Explorer.

(** A new process: no app yet, nothing logged or printed; the credential
    file and the output file are whatever the disk holds. *)
Definition fresh (cred : CredFile) (file : option string) : World :=
  mkWorld cred None [] [] [] file.

(** the exit status of [python explore_firestore.py] *)
Definition exit_code (r : result unit) : Z :=
  match r with
  | Ok _ => 0
  | Raise _ => 1
  end.

Definition run (svc : Service) (cred : CredFile) (file : option string)
  : result unit * World :=
  main svc (fresh cred file).

(** ** Vocabulary of the statements *)

(** Connecting will yield a handle: an app exists already, or the
    credential file is there and valid. *)
Definition available (w : World) : bool :=
  match app w with
  | Some _ => true
  | None => match cred_file w with CredValid => true | _ => false end
  end.

(** a fetch that yields at least one document *)
Definition has_document (r : result (list Document)) : bool :=
  match r with
  | Ok (_ :: _) => true
  | _ => false
  end.

(** Asked one after the other with limit 3, after the calls [hist], none
    of [names] yields a document (each fetch raises or comes back empty). *)
Fixpoint all_miss (svc : Service) (hist : list Call) (names : list string) : bool :=
  match names with
  | [] => true
  | name :: rest =>
      negb (has_document (query_get svc hist name 3))
      && all_miss svc (hist ++ [Get name 3]) rest
  end.

(** the query the discovery sends for one candidate *)
Definition probe (name : string) : Call := Get name 3.

(** the world after one more call was sent, nothing else changed *)
Definition asked (c : Call) (w : World) : World :=
  mkWorld (cred_file w) (app w) (auth_log w) (calls w ++ [c]) (stdout w) (out_file w).

(** [n] calls of init_firestore in a row, with what each returned *)
Fixpoint init_times (n : nat) : M (list (option Handle)) :=
  match n with
  | O => ret []
  | S n' => db <- init_firestore ;; rest <- init_times n' ;; ret (db :: rest)
  end.

Open Scope list_scope.

(** [w'] is [w] after more calls and prints: same credential file, same
    output file, an app once created stays. *)
Definition steady (w w' : World) : Prop :=
  cred_file w' = cred_file w /\
  out_file w' = out_file w /\
  (exists more, calls w' = (calls w ++ more)) /\
  (exists more, stdout w' = (stdout w ++ more)) /\
  (forall session, app w = Some session -> app w' = Some session) /\
  (available w = true -> available w' = true).

(** [w'] is [w] after more prints and nothing else *)
Definition printed (w w' : World) : Prop :=
  cred_file w' = cred_file w /\ app w' = app w /\ auth_log w' = auth_log w /\
  calls w' = calls w /\ out_file w' = out_file w /\
  exists more, stdout w' = (stdout w ++ more).

Definition frame {A} (m : M A) : Prop :=
  forall w r w', m w = (r, w') -> steady w w'.

Definition prints_only {A} (m : M A) : Prop :=
  forall w, exists a w', m w = (Ok a, w') /\ printed w w'.

Definition no_raise {A} (m : M A) : Prop :=
  forall w, exists a w', m w = (Ok a, w').

(** no app in the process and nothing at the credential path *)
Definition offline (w : World) : Prop :=
  app w = None /\ cred_file w = CredMissing.

(** the calls made before the last one *)
Definition before_last (log : list Call) : list Call := removelast log.

(** two runs of the script in a row, each in a process of its own: the
    second finds the file the first left *)
Definition second_run (svc1 svc2 : Service) (file0 : option string)
  : result unit * World :=
  run svc2 CredValid (out_file (snd (run svc1 CredValid file0))).

(** the world after the lines were printed, nothing else changed *)
Definition emit (lines : list string) (w : World) : World :=
  mkWorld (cred_file w) (app w) (auth_log w) (calls w) (stdout w ++ lines) (out_file w).

(** [if data:] *)
Definition has_data (doc : Document) : bool :=
  match data doc with
  | [] => false
  | _ :: _ => true
  end.

(** what explore_collection_structure prints for the [i]-th document *)
Definition doc_lines (idoc : nat * Document) : list string :=
  (nl ++ "📄 Document " ++ str_nat (fst idoc) ++ " (ID: " ++ id (snd idoc) ++ "):")%string
  :: match data (snd idoc) with
     | [] => ["  (No data)"]
     | _ :: _ => map (fun kv => field_line (fst kv) (snd kv)) (data (snd idoc))
     end.

(** the lines of the fields of [fields] that [d] holds, in the order of
    [fields] *)
Definition whitelisted_lines (fields : list string) (shown : Value -> Value)
           (d : list (string * Value)) : list string :=
  flat_map (fun field =>
              match dict_get field d with
              | Some value => [("  " ++ field ++ ": " ++ py_str (shown value))%string]
              | None => []
              end) fields.

(** what explore_products_structure prints for the [i]-th product *)
Definition product_lines (ip : nat * Document) : list string :=
  (nl ++ "📦 Product " ++ str_nat (fst ip) ++ " (ID: " ++ id (snd ip) ++ "):")%string
  :: whitelisted_lines product_fields product_value (data (snd ip)).

Open Scope string_scope.

(** ** Sample services *)

Definition sample_order : Document :=
  mkDocument "o-17"
    [("status", VStr "open"); ("total", VInt 12);
     ("items", VList [VInt 1; VInt 2; VInt 3; VInt 4]); ("note", VNone)].

(** "orders" is empty, "Orders" fails, "order" and every later name hold
    one document; "products" fails; two collections are listed. *)
Definition svc_order_third : Service :=
  mkService
    (fun _ name _ =>
       if String.eqb name "orders" then Ok []
       else if String.eqb name "Orders" then Raise (Exception "permission denied")
       else if String.eqb name "products" then Raise (Exception "deadline exceeded")
       else if String.eqb name "users" then Ok []
       else Ok [sample_order])
    (fun _ => Ok ["users"; "order"]).

(** every collection is empty *)
Definition svc_empty : Service :=
  mkService (fun _ _ _ => Ok []) (fun _ => Ok []).

(** every call raises *)
Definition svc_down : Service :=
  mkService (fun _ _ _ => Raise (Exception "unavailable"))
            (fun _ => Raise (Exception "unavailable")).

(** answers that depend on the past: the first two queries of a run fail,
    every later one finds the sample document *)
Definition svc_warming_up : Service :=
  mkService
    (fun hist _ _ =>
       if (List.length hist <? 2)%nat then Raise (Exception "warming up")
       else Ok [sample_order])
    (fun _ => Ok ["Orders"]).

(** a document with a text of 120 characters, a list of 5 items and a
    mapping of 8 keys, next to short ones *)
Definition sample_wide : Document :=
  mkDocument "w-1"
    [("text", VStr (str_mul "0123456789" 12));
     ("tags", VList [VStr "a"; VStr "b"; VStr "c"; VStr "d"; VStr "e"]);
     ("attrs", VDict [("k1", VInt 1); ("k2", VInt 2); ("k3", VInt 3); ("k4", VInt 4);
                      ("k5", VInt 5); ("k6", VInt 6); ("k7", VInt 7); ("k8", VInt 8)]);
     ("name", VStr "widget"); ("description", VStr (str_mul "lorem ipsum " 10));
     ("secret", VStr "not shown among products")].



(** a document without a field *)
Definition sample_bare : Document := mkDocument "b-0" [].

(** every collection holds the sample order, then the bare document, then
    the sample order again *)
Definition svc_mixed : Service :=
  mkService (fun _ _ _ => Ok [sample_order; sample_bare; sample_order])
            (fun _ => Ok ["orders"]).

(** every collection holds the wide sample *)
Definition svc_wide : Service :=
  mkService (fun _ _ _ => Ok [sample_wide]) (fun _ => Ok ["things"]).

(** ** Vocabulary of the further properties *)

Open Scope list_scope.

(** no app in the process and a credential file that cannot be loaded *)
Definition broken (e : exn) (w : World) : Prop :=
  app w = None /\ cred_file w = CredInvalid e.

(** one failed attempt to connect: the path was checked and the
    certificate read, nothing else changed *)
Definition attempted (w : World) : World :=
  mkWorld (cred_file w) (app w) (auth_log w ++ [PathChecked; CertificateRead])
          (calls w) (stdout w) (out_file w).

(** an app that exists stays, and nothing more is logged about
    authentication *)
Definition same_session (w w' : World) : Prop :=
  forall session, app w = Some session ->
                  app w' = Some session /\ auth_log w' = auth_log w.

(** the world after a first, successful connection: the path was checked,
    the certificate read and one app created, nothing else changed *)
Definition signed_in (w : World) : World :=
  mkWorld (cred_file w) (Some (sessions (auth_log w)))
          (auth_log w ++ [PathChecked; CertificateRead;
                          AppInitialized (sessions (auth_log w))])
          (calls w) (stdout w) (out_file w).

Definition keeps_session {A} (m : M A) : Prop :=
  forall w r w', m w = (r, w') -> same_session w w'.

Fixpoint str_forall (p : ascii -> bool) (s : string) : bool :=
  match s with
  | EmptyString => true
  | String c s' => p c && str_forall p s'
  end.

(** how often [c] occurs in [s] *)
Fixpoint str_count (c : ascii) (s : string) : nat :=
  match s with
  | EmptyString => O
  | String c' s' => (if Ascii.eqb c c' then 1 else 0) + str_count c s'
  end.

(** the header of the [i]-th document in explore_collection_structure *)
Definition doc_header (i : nat) (doc : Document) : string :=
  (nl ++ "📄 Document " ++ str_nat i ++ " (ID: " ++ id doc ++ "):")%string.

(** a line feed or a printable character of ASCII *)
Definition plain_ascii (c : ascii) : bool :=
  let n := nat_of_ascii c in
  ((n =? 10) || (32 <=? n) && (n <=? 126))%nat.

(** what explore_users_structure prints for one user *)
Definition user_lines (user : Document) : list string :=
  (nl ++ "👤 User ID: " ++ id user)%string
  :: whitelisted_lines user_fields (fun value => value) (data user).

(** what the discovery prints for the candidate it accepts, given the
    first document fetched *)
Definition order_lines (collection_name : string) (doc : Document) : list string :=
  [("✅ Found orders in collection: '" ++ collection_name ++ "'")%string;
   ("  Order ID: " ++ id doc)%string]
  ++ match found_fields order_fields (data doc) with
     | [] => []
     | _ :: _ =>
         [("    Key fields: "
             ++ String.concat ", " (firstn 3 (found_fields order_fields (data doc))))%string]
     end.

Open Scope string_scope.

(** * Theorems *)

Open Scope list_scope.

(** ** Connecting *)

Lemma init_firestore_reuse (w : World) (session : nat) :
  app w = Some session ->
  init_firestore w = (Ok (Some (Client session)), w).
Proof.
  destruct w as [c a al cs so f]; simpl; intros ->. reflexivity.
Qed.

Lemma init_firestore_missing (w : World) :
  app w = None -> cred_file w = CredMissing ->
  init_firestore w =
    (Ok None,
     mkWorld CredMissing None (auth_log w ++ [PathChecked]) (calls w)
             (stdout w ++ [("❌ Credentials file not found at " ++ cred_path)%string])
             (out_file w)).
Proof.
  destruct w as [c a al cs so f]; simpl; intros -> ->. reflexivity.
Qed.

Lemma init_firestore_fresh (w : World) :
  app w = None -> cred_file w = CredValid ->
  init_firestore w =
    (Ok (Some (Client (sessions (auth_log w)))),
     mkWorld CredValid (Some (sessions (auth_log w)))
             (auth_log w ++ [PathChecked; CertificateRead;
                             AppInitialized (sessions (auth_log w))])
             (calls w) (stdout w) (out_file w)).
Proof.
  destruct w as [c a al cs so f]; simpl; intros -> ->.
  unfold init_firestore, try_except_ValueError, bind; simpl.
  repeat rewrite <- app_assoc; simpl.
  assert (E : sessions (al ++ [PathChecked; CertificateRead]) = sessions al).
  { unfold sessions. rewrite filter_app, length_app. simpl. lia. }
  rewrite E. reflexivity.
Qed.

Lemma init_firestore_invalid (w : World) (e : exn) :
  app w = None -> cred_file w = CredInvalid e ->
  init_firestore w =
    (Raise e,
     mkWorld (CredInvalid e) None (auth_log w ++ [PathChecked; CertificateRead])
             (calls w) (stdout w) (out_file w)).
Proof.
  destruct w as [c a al cs so f]; simpl; intros -> ->.
  unfold init_firestore, try_except_ValueError, bind; simpl.
  repeat rewrite <- app_assoc; reflexivity.
Qed.

(** When connecting is possible it yields a handle and touches neither the
    call log, the output nor the file. *)
Lemma init_firestore_available (w : World) :
  available w = true ->
  exists db w',
    init_firestore w = (Ok (Some db), w') /\
    calls w' = calls w /\ stdout w' = stdout w /\ out_file w' = out_file w /\
    cred_file w' = cred_file w /\ available w' = true.
Proof.
  unfold available. destruct (app w) as [s|] eqn:Happ.
  - intros _. exists (Client s), w. rewrite (init_firestore_reuse w s Happ).
    unfold available. rewrite Happ. repeat split; reflexivity.
  - destruct (cred_file w) eqn:Hc; try discriminate. intros _.
    eexists. eexists. rewrite (init_firestore_fresh w Happ Hc).
    split; [reflexivity|]. simpl. repeat split; auto.
Qed.

(** ** How a computation may change the world *)

Create HintDb py.

Lemma steady_refl w : steady w w.
Proof.
  unfold steady. repeat split; auto; exists []; now rewrite app_nil_r.
Qed.

Lemma steady_trans w1 w2 w3 : steady w1 w2 -> steady w2 w3 -> steady w1 w3.
Proof.
  intros (c1 & f1 & [k1 K1] & [s1 S1] & A1 & V1) (c2 & f2 & [k2 K2] & [s2 S2] & A2 & V2).
  unfold steady. repeat split; try congruence; auto.
  - exists (k1 ++ k2)%list. rewrite K2, K1. now rewrite app_assoc.
  - exists (s1 ++ s2)%list. rewrite S2, S1. now rewrite app_assoc.
Qed.

Lemma printed_refl w : printed w w.
Proof. unfold printed. repeat split; auto. exists []. now rewrite app_nil_r. Qed.

Lemma printed_trans w1 w2 w3 : printed w1 w2 -> printed w2 w3 -> printed w1 w3.
Proof.
  intros (c1 & a1 & l1 & k1 & f1 & [s1 S1]) (c2 & a2 & l2 & k2 & f2 & [s2 S2]).
  unfold printed. repeat split; try congruence.
  exists (s1 ++ s2)%list. rewrite S2, S1. now rewrite app_assoc.
Qed.

Lemma printed_steady w w' : printed w w' -> steady w w'.
Proof.
  intros (c & a & l & k & f & S). unfold steady, available.
  rewrite c, a, k. repeat split; auto. exists []. now rewrite app_nil_r.
Qed.

Lemma bind_ok {A B} (m : M A) (k : A -> M B) w a w' :
  m w = (Ok a, w') -> bind m k w = k a w'.
Proof. unfold bind. now intros ->. Qed.

Lemma bind_print {B} line (k : unit -> M B) w :
  bind (print line) k w = k tt (snd (print line w)).
Proof. reflexivity. Qed.

Lemma try_except_ok {A} (m : M A) h w a w' :
  m w = (Ok a, w') -> try_except m h w = (Ok a, w').
Proof. unfold try_except. now intros ->. Qed.

(** *** frame rules *)

Lemma frame_ret {A} (a : A) : frame (ret a).
Proof. intros w r w' [= <- <-]. apply steady_refl. Qed.

Lemma frame_bind {A B} (m : M A) (k : A -> M B) :
  frame m -> (forall a, frame (k a)) -> frame (bind m k).
Proof.
  intros Hm Hk w r w'. unfold bind. destruct (m w) as [[a|e] w1] eqn:E.
  - intros H. eapply steady_trans; [eapply Hm; eauto | eapply Hk; eauto].
  - intros [= <- <-]. eapply Hm; eauto.
Qed.

Lemma frame_try_except {A} (m : M A) h :
  frame m -> (forall e, frame (h e)) -> frame (try_except m h).
Proof.
  intros Hm Hh w r w'. unfold try_except. destruct (m w) as [[a|e] w1] eqn:E.
  - intros [= <- <-]. eapply Hm; eauto.
  - intros H. eapply steady_trans; [eapply Hm; eauto | eapply Hh; eauto].
Qed.

Lemma frame_print line : frame (print line).
Proof.
  intros w r w' [= <- <-]. apply printed_steady. unfold printed; simpl.
  repeat split; auto. now exists [line].
Qed.

Lemma frame_for_each {A} (l : list A) body :
  (forall x, frame (body x)) -> frame (for_each l body).
Proof.
  intros Hb. induction l as [|x l IH]; simpl.
  - apply frame_ret.
  - apply frame_bind; auto.
Qed.

Lemma frame_init_firestore : frame init_firestore.
Proof.
  intros w r w' H.
  destruct (app w) as [s|] eqn:Happ.
  - rewrite (init_firestore_reuse w s Happ) in H. injection H as <- <-. apply steady_refl.
  - destruct (cred_file w) as [|why|] eqn:Hc.
    + rewrite (init_firestore_missing w Happ Hc) in H. injection H as <- <-.
      unfold steady, available; simpl. rewrite Happ, Hc.
      repeat split; auto; try discriminate.
      * exists []; now rewrite app_nil_r.
      * eexists; reflexivity.
    + rewrite (init_firestore_invalid w why Happ Hc) in H. injection H as <- <-.
      unfold steady, available; simpl. rewrite Happ, Hc.
      repeat split; auto; try discriminate; exists []; now rewrite app_nil_r.
    + rewrite (init_firestore_fresh w Happ Hc) in H. injection H as <- <-.
      unfold steady, available; simpl. rewrite Happ, Hc.
      repeat split; auto; try discriminate; exists []; now rewrite app_nil_r.
Qed.

#[local] Hint Resolve frame_ret frame_bind frame_try_except frame_print
  frame_for_each frame_init_firestore : py.

Ltac frame_step :=
  match goal with
  | |- frame (bind _ _) => apply frame_bind; [|intros ?]
  | |- frame (try_except _ _) => apply frame_try_except; [|intros ?]
  | |- frame (for_each _ _) => apply frame_for_each; intros ?
  | |- frame (match ?x with _ => _ end) => destruct x
  | |- frame _ => solve [auto with py]
  end.

Ltac frames := repeat frame_step.

Section Frames.

Variable svc : Service.

Lemma frame_collection_get db name limit : frame (collection_get svc db name limit).
Proof.
  intros w r w' [= <- <-]. unfold steady, available; simpl.
  repeat split; auto; [eexists; reflexivity | exists []; now rewrite app_nil_r].
Qed.

Hint Resolve frame_collection_get : py.

Lemma frame_explore_docs docs samples : frame (explore_docs docs samples).
Proof.
  revert samples. induction docs as [|[i doc] rest IH]; intros samples; simpl; frames.
Qed.

Lemma frame_show_first_order name docs : frame (show_first_order name docs).
Proof. unfold show_first_order. frames. Qed.

Lemma frame_print_fields fields shown d : frame (print_fields fields shown d).
Proof. unfold print_fields. frames. Qed.

Hint Resolve frame_explore_docs frame_show_first_order frame_print_fields : py.

Lemma frame_try_collections db names : frame (try_collections svc db names).
Proof. induction names as [|name rest IH]; simpl; frames. Qed.

Hint Resolve frame_try_collections : py.

Lemma frame_explore_collection_structure name limit :
  frame (explore_collection_structure svc name limit).
Proof. unfold explore_collection_structure. frames. Qed.

Lemma frame_find_orders_by_criteria : frame (find_orders_by_criteria svc).
Proof. unfold find_orders_by_criteria. frames. Qed.

Lemma frame_explore_users_structure : frame (explore_users_structure svc).
Proof. unfold explore_users_structure. frames. Qed.

Lemma frame_explore_products_structure : frame (explore_products_structure svc).
Proof. unfold explore_products_structure. frames. Qed.

Hint Resolve frame_explore_collection_structure : py.

Lemma frame_explore_orders r : frame (explore_orders svc r).
Proof. unfold explore_orders. frames. Qed.

End Frames.

(** *** computations that cannot raise *)

Lemma no_raise_ret {A} (a : A) : no_raise (ret a).
Proof. intros w. now exists a, w. Qed.

Lemma no_raise_print line : no_raise (print line).
Proof. intros w. unfold print. eauto. Qed.

Lemma no_raise_bind {A B} (m : M A) (k : A -> M B) :
  no_raise m -> (forall a, no_raise (k a)) -> no_raise (bind m k).
Proof.
  intros Hm Hk w. destruct (Hm w) as (a & w1 & E).
  destruct (Hk a w1) as (b & w2 & E2). exists b, w2.
  now rewrite (bind_ok _ _ _ _ _ E).
Qed.

(** A try whose handler cannot raise cannot raise, whatever its body does. *)
Lemma no_raise_try_except {A} (m : M A) h :
  (forall e, no_raise (h e)) -> no_raise (try_except m h).
Proof.
  intros Hh w. unfold try_except. destruct (m w) as [[a|e] w1]; [eauto | apply Hh].
Qed.

Lemma no_raise_for_each {A} (l : list A) body :
  (forall x, no_raise (body x)) -> no_raise (for_each l body).
Proof.
  intros Hb. induction l as [|x l IH]; simpl.
  - apply no_raise_ret.
  - apply no_raise_bind; auto.
Qed.

#[local] Hint Resolve no_raise_ret no_raise_print no_raise_bind no_raise_try_except
  no_raise_for_each : py.

Ltac no_raise_step :=
  match goal with
  | |- no_raise (bind _ _) => apply no_raise_bind; [|intros ?]
  | |- no_raise (try_except _ _) => apply no_raise_try_except; intros ?
  | |- no_raise (for_each _ _) => apply no_raise_for_each; intros ?
  | |- no_raise (match ?x with _ => _ end) => destruct x
  | |- no_raise _ => solve [auto with py]
  end.

Ltac no_raises := repeat no_raise_step.

(** *** computations that only print *)

Lemma prints_only_ret {A} (a : A) : prints_only (ret a).
Proof. intros w. exists a, w. split; [reflexivity | apply printed_refl]. Qed.

Lemma prints_only_print line : prints_only (print line).
Proof.
  intros w. eexists. eexists. split; [reflexivity|].
  unfold printed; simpl. repeat split; auto. now exists [line].
Qed.

Lemma prints_only_bind {A B} (m : M A) (k : A -> M B) :
  prints_only m -> (forall a, prints_only (k a)) -> prints_only (bind m k).
Proof.
  intros Hm Hk w. destruct (Hm w) as (a & w1 & E & P1).
  destruct (Hk a w1) as (b & w2 & E2 & P2). exists b, w2.
  rewrite (bind_ok _ _ _ _ _ E). split; [assumption | eapply printed_trans; eauto].
Qed.

Lemma prints_only_for_each {A} (l : list A) body :
  (forall x, prints_only (body x)) -> prints_only (for_each l body).
Proof.
  intros Hb. induction l as [|x l IH]; simpl.
  - apply prints_only_ret.
  - apply prints_only_bind; auto.
Qed.

Ltac prints_step :=
  match goal with
  | |- prints_only (ret _) => apply prints_only_ret
  | |- prints_only (print _) => apply prints_only_print
  | |- prints_only (bind _ _) => apply prints_only_bind; [|intros ?]
  | |- prints_only (for_each _ _) => apply prints_only_for_each; intros ?
  | |- prints_only (match ?x with _ => _ end) => destruct x
  | |- prints_only _ => solve [auto with py]
  end.

Ltac prints := repeat prints_step.

Lemma prints_only_print_fields fields shown d : prints_only (print_fields fields shown d).
Proof. unfold print_fields. prints. Qed.

Lemma prints_only_explore_docs docs samples : prints_only (explore_docs docs samples).
Proof.
  revert samples. induction docs as [|[i doc] rest IH]; intros samples; simpl; prints.
Qed.

Lemma prints_only_show_first_order name docs : prints_only (show_first_order name docs).
Proof. unfold show_first_order. prints. Qed.

#[local] Hint Resolve prints_only_print_fields prints_only_explore_docs
  prints_only_show_first_order : py.

(** what a computation ending in [ret b] returns *)
Lemma bind_ret_inv {A B} (m : M A) (b : B) w r w' :
  bind m (fun _ => ret b) w = (Ok r, w') -> r = b /\ exists a, m w = (Ok a, w').
Proof.
  unfold bind, ret. destruct (m w) as [[a|e] w1]; intros [= <- <-]; eauto.
Qed.

(** ** The steps never raise *)

Section Steps.

Variable svc : Service.

Lemma no_raise_explore_users_structure : no_raise (explore_users_structure svc).
Proof. unfold explore_users_structure. no_raises. Qed.

Lemma no_raise_find_orders_by_criteria : no_raise (find_orders_by_criteria svc).
Proof. unfold find_orders_by_criteria. no_raises. Qed.

Lemma no_raise_explore_collection_structure name limit :
  no_raise (explore_collection_structure svc name limit).
Proof. unfold explore_collection_structure. no_raises. Qed.

Lemma no_raise_explore_products_structure : no_raise (explore_products_structure svc).
Proof. unfold explore_products_structure. no_raises. Qed.

Lemma no_raise_list_all_collections : no_raise (list_all_collections svc).
Proof. unfold list_all_collections. no_raises. Qed.

Hint Resolve no_raise_explore_users_structure no_raise_find_orders_by_criteria
  no_raise_explore_collection_structure no_raise_explore_products_structure
  no_raise_list_all_collections : py.

Lemma no_raise_explore_orders r : no_raise (explore_orders svc r).
Proof. unfold explore_orders. no_raises. Qed.

Hint Resolve no_raise_explore_orders : py.

Lemma no_raise_main : no_raise (main svc).
Proof. unfold main. no_raises. Qed.

(** A connected step sends its one query and goes on with the answer. *)
Lemma connected_query {A} name limit (none : M A) (k : list Document -> M A)
      (h : exn -> M A) (w : World) :
  available w = true ->
  exists w1,
    calls w1 = (calls w ++ [Get name limit])%list /\ stdout w1 = stdout w /\
    out_file w1 = out_file w /\ cred_file w1 = cred_file w /\ available w1 = true /\
    try_except
      (db <- init_firestore ;;
       match db with
       | None => none
       | Some db => docs <- collection_get svc db name limit ;; k docs
       end) h w
    = match query_get svc (calls w) name limit with
      | Ok docs => try_except (k docs) h w1
      | Raise e => h e w1
      end.
Proof.
  intros Hav.
  destruct (init_firestore_available w Hav) as (db & w0 & Hi & Hc & Hs & Hf & Hcr & Hav0).
  exists (mkWorld (cred_file w0) (app w0) (auth_log w0)
                  (calls w0 ++ [Get name limit]) (stdout w0) (out_file w0)).
  simpl. repeat split; try congruence.
  - unfold available in *; simpl; assumption.
  - unfold try_except at 1. rewrite (bind_ok _ _ _ _ _ Hi).
    unfold bind, collection_get. rewrite Hc.
    destruct (query_get svc (calls w) name limit) as [docs|e]; reflexivity.
Qed.

End Steps.

(** ** Discovery of the orders collection *)

Section Discovery.

Variable svc : Service.

Lemma no_raise_try_collections db names : no_raise (try_collections svc db names).
Proof. induction names as [|name rest IH]; simpl; no_raises. Qed.

(** A candidate without a document (error or empty answer) leaves no trace
    but its query, and the loop goes on. *)
Lemma try_collections_miss db name rest w :
  has_document (query_get svc (calls w) name 3) = false ->
  try_collections svc db (name :: rest) w
  = try_collections svc db rest (asked (probe name) w).
Proof.
  intros Hm. simpl. unfold bind at 1. unfold try_except, bind at 1, collection_get.
  destruct (query_get svc (calls w) name 3) as [[|doc docs]|e]; try discriminate;
    reflexivity.
Qed.

(** A candidate with a document is returned at once. *)
Lemma try_collections_hit db name rest w :
  has_document (query_get svc (calls w) name 3) = true ->
  exists w',
    try_collections svc db (name :: rest) w = (Ok (RStr name), w') /\
    printed (asked (probe name) w) w'.
Proof.
  intros Hh. simpl. unfold bind at 1. unfold try_except, bind at 1, collection_get.
  destruct (query_get svc (calls w) name 3) as [[|doc docs]|e]; try discriminate.
  fold (asked (probe name) w).
  destruct (prints_only_show_first_order name (doc :: docs) (asked (probe name) w))
    as ([] & w1 & E & P).
  rewrite (bind_ok _ _ _ _ _ E). exists w1. split; [reflexivity | assumption].
Qed.

Lemma try_collections_first_hit db pre name post w :
  all_miss svc (calls w) pre = true ->
  has_document (query_get svc (calls w ++ map probe pre) name 3) = true ->
  exists w',
    try_collections svc db (pre ++ name :: post) w = (Ok (RStr name), w') /\
    calls w' = (calls w ++ map probe (pre ++ [name]))%list /\
    out_file w' = out_file w /\ cred_file w' = cred_file w /\ app w' = app w.
Proof.
  revert w. induction pre as [|c pre IH]; intros w Hmiss Hhit; simpl in *.
  - rewrite app_nil_r in Hhit.
    destruct (try_collections_hit db name post w Hhit) as (w' & E & P).
    exists w'. split; [exact E|].
    destruct P as (c1 & a1 & _ & k1 & f1 & _). simpl in *. auto.
  - apply andb_true_iff in Hmiss as [Hc Hrest]. apply negb_true_iff in Hc.
    pose proof (try_collections_miss db c (pre ++ name :: post) w Hc) as Hstep.
    simpl in Hstep. rewrite Hstep.
    destruct (IH (asked (probe c) w)) as (w' & E & K & F & C & A); simpl.
    + exact Hrest.
    + now rewrite <- app_assoc.
    + exists w'. split; [exact E|]. simpl in *. rewrite K, <- app_assoc. auto.
Qed.

Lemma try_collections_exhausted db names w :
  all_miss svc (calls w) names = true ->
  exists w',
    try_collections svc db names w = (Ok RNone, w') /\
    calls w' = (calls w ++ map probe names)%list /\
    stdout w' = (stdout w ++ ["❌ No orders collection found with standard names"])%list /\
    out_file w' = out_file w /\ cred_file w' = cred_file w /\ app w' = app w.
Proof.
  revert w. induction names as [|c names IH]; intros w Hmiss.
  - eexists. split; [reflexivity|]. simpl. rewrite app_nil_r. auto.
  - simpl in Hmiss. apply andb_true_iff in Hmiss as [Hc Hrest]. apply negb_true_iff in Hc.
    rewrite (try_collections_miss db c names w Hc).
    destruct (IH (asked (probe c) w) Hrest) as (w' & E & K & S & F & C & A).
    exists w'. split; [exact E|]. simpl in *. rewrite K, <- app_assoc. auto.
Qed.

(** The loop returns None or one of the names it was given. *)
Lemma try_collections_result db names w r w' :
  try_collections svc db names w = (Ok r, w') ->
  r = RNone \/ exists name, In name names /\ r = RStr name.
Proof.
  revert w. induction names as [|c names IH]; intros w H.
  - injection H as <- _. now left.
  - destruct (has_document (query_get svc (calls w) c 3)) eqn:Hd.
    + destruct (try_collections_hit db c names w Hd) as (w1 & E & _).
      rewrite E in H. injection H as <- _. right. exists c. split; [now left | reflexivity].
    + rewrite (try_collections_miss db c names w Hd) in H.
      destruct (IH _ H) as [->|(n & Hin & ->)]; [now left|].
      right. exists n. split; [now right | reflexivity].
Qed.

(** The loop begins by querying its first name. *)
Lemma try_collections_first_query db name rest w r w' :
  try_collections svc db (name :: rest) w = (r, w') ->
  exists more, calls w' = (calls w ++ probe name :: more)%list.
Proof.
  intros H. destruct (has_document (query_get svc (calls w) name 3)) eqn:Hd.
  - destruct (try_collections_hit db name rest w Hd) as (w1 & E & P).
    rewrite E in H. injection H as _ <-.
    destruct P as (_ & _ & _ & K & _). exists []. exact K.
  - rewrite (try_collections_miss db name rest w Hd) in H.
    apply frame_try_collections in H. destruct H as (_ & _ & [more K] & _).
    exists more. rewrite K. simpl. now rewrite <- app_assoc.
Qed.

(** Connected, the step is its two header lines and the loop. *)
Lemma find_orders_connected w :
  available w = true ->
  exists db w0,
    calls w0 = calls w /\ out_file w0 = out_file w /\ cred_file w0 = cred_file w /\
    stdout w0 = (stdout w ++ [(nl ++ "🔍 Searching for orders...")%string; str_mul "=" 60])%list /\
    find_orders_by_criteria svc w = try_collections svc db collections_to_try w0.
Proof.
  intros Hav. unfold find_orders_by_criteria.
  set (w1 := snd (print (str_mul "=" 60) (snd (print (nl ++ "🔍 Searching for orders...") w)))).
  assert (Hav1 : available w1 = true) by (unfold available in *; simpl; exact Hav).
  destruct (init_firestore_available w1 Hav1) as (db & w0 & Hi & Hc & Hs & Hf & Hcr & _).
  exists db, w0. repeat split; try (rewrite ?Hc, ?Hs, ?Hf, ?Hcr; reflexivity).
  - rewrite Hs. unfold w1; simpl. now rewrite <- app_assoc.
  - rewrite !bind_print. fold w1. unfold try_except.
    rewrite (bind_ok _ _ _ _ _ Hi). cbv beta iota.
    destruct (no_raise_try_collections db collections_to_try w0) as (r & w' & E).
    now rewrite E.
Qed.

End Discovery.

Lemma collections_to_try_NoDup : NoDup collections_to_try.
Proof. unfold collections_to_try. repeat constructor; simpl; intuition discriminate. Qed.

Lemma NoDup_split_later {A} (pre post : list A) (x later : A) :
  NoDup (pre ++ x :: post) -> In later post -> ~ In later (pre ++ [x]).
Proof.
  induction pre as [|p pre IH]; simpl; intros Hnd Hin.
  - inversion Hnd; subst. intros [->|[]]. contradiction.
  - inversion Hnd; subst. intros [->|H].
    + apply H1. apply in_or_app. right. now right.
    + now apply (IH H2 Hin).
Qed.

Lemma in_probe name limit names : In (Get name limit) (map probe names) -> In name names.
Proof.
  intros H. apply in_map_iff in H as (n & E & Hin). unfold probe in E. congruence.
Qed.

Section DiscoveryTop.

Variable svc : Service.

Lemma find_orders_hit w pre name post :
  available w = true ->
  collections_to_try = pre ++ name :: post ->
  all_miss svc (calls w) pre = true ->
  has_document (query_get svc (calls w ++ map probe pre) name 3) = true ->
  exists w',
    find_orders_by_criteria svc w = (Ok (RStr name), w') /\
    calls w' = (calls w ++ map probe (pre ++ [name]))%list /\
    out_file w' = out_file w.
Proof.
  intros Hav Hsplit Hmiss Hhit.
  destruct (find_orders_connected svc w Hav) as (db & w0 & Hc & Hf & _ & _ & E).
  rewrite E, Hsplit. rewrite <- Hc in Hmiss, Hhit.
  destruct (try_collections_first_hit svc db pre name post w0 Hmiss Hhit)
    as (w' & E' & K & F & _).
  exists w'. split; [exact E'|]. split; congruence.
Qed.

Lemma find_orders_miss w :
  available w = true ->
  all_miss svc (calls w) collections_to_try = true ->
  exists w',
    find_orders_by_criteria svc w = (Ok RNone, w') /\
    calls w' = (calls w ++ map probe collections_to_try)%list /\
    stdout w' = (stdout w ++ [(nl ++ "🔍 Searching for orders...")%string;
                              str_mul "=" 60;
                              "❌ No orders collection found with standard names"])%list /\
    out_file w' = out_file w.
Proof.
  intros Hav Hmiss.
  destruct (find_orders_connected svc w Hav) as (db & w0 & Hc & Hf & _ & Hs & E).
  rewrite E. rewrite <- Hc in Hmiss.
  destruct (try_collections_exhausted svc db collections_to_try w0 Hmiss)
    as (w' & E' & K & S & F & _).
  exists w'. split; [exact E'|]. rewrite K, S, F, Hc, Hs, Hf, <- app_assoc.
  repeat split; reflexivity.
Qed.

End DiscoveryTop.

(** C1.  Connected, the discovery asks the candidates in the fixed order,
    each with limit 3, and returns the first one whose fetch yields a
    document: the queries it sends are those of the candidates up to that
    one, and a query for a later candidate found in the log afterwards was
    there before the step began. *)
Theorem find_orders_first_match (svc : Service) (w : World)
        (pre : list string) (name : string) (post : list string) :
  available w = true ->
  collections_to_try = pre ++ name :: post ->
  all_miss svc (calls w) pre = true ->
  has_document (query_get svc (calls w ++ map probe pre) name 3) = true ->
  exists w',
    find_orders_by_criteria svc w = (Ok (RStr name), w') /\
    calls w' = (calls w ++ map probe (pre ++ [name]))%list /\
    (forall later limit,
        In later post -> In (Get later limit) (calls w') -> In (Get later limit) (calls w)).
Proof.
  intros Hav Hsplit Hmiss Hhit.
  destruct (find_orders_hit svc w pre name post Hav Hsplit Hmiss Hhit) as (w' & E & K & _).
  exists w'. repeat split; try assumption.
  intros later limit Hin Hlog. rewrite K in Hlog.
  apply in_app_or in Hlog as [H|H]; [assumption|].
  exfalso. apply in_probe in H.
  pose proof collections_to_try_NoDup as Hnd. rewrite Hsplit in Hnd.
  exact (NoDup_split_later pre post name later Hnd Hin H).
Qed.

Lemma find_orders_first_match_witness :
  available (fresh CredValid None) = true /\
  collections_to_try = ["orders"; "Orders"] ++ "order" :: ["purchase_orders"; "transactions"] /\
  all_miss svc_order_third (calls (fresh CredValid None)) ["orders"; "Orders"] = true /\
  has_document
    (query_get svc_order_third
       (calls (fresh CredValid None) ++ map probe ["orders"; "Orders"]) "order" 3) = true /\
  exists w',
    find_orders_by_criteria svc_order_third (fresh CredValid None) = (Ok (RStr "order"), w') /\
    calls w' = [Get "orders" 3; Get "Orders" 3; Get "order" 3] /\
    (forall later limit,
        In later ["purchase_orders"; "transactions"] ->
        In (Get later limit) (calls w') -> False).
Proof.
  repeat (split; [reflexivity|]).
  exact (find_orders_first_match svc_order_third (fresh CredValid None)
           ["orders"; "Orders"] "order" ["purchase_orders"; "transactions"]
           eq_refl eq_refl eq_refl eq_refl).
Defined.

(** The third candidate: when "orders" and "Orders" yield nothing and
    "order" yields a document, the result is "order" and exactly three
    queries were sent; "purchase_orders" and "transactions" are not among
    them. *)
Corollary find_orders_third_candidate (svc : Service) (w : World) :
  available w = true ->
  all_miss svc (calls w) ["orders"; "Orders"] = true ->
  has_document
    (query_get svc (calls w ++ [Get "orders" 3; Get "Orders" 3]) "order" 3) = true ->
  exists w',
    find_orders_by_criteria svc w = (Ok (RStr "order"), w') /\
    calls w' = (calls w ++ [Get "orders" 3; Get "Orders" 3; Get "order" 3])%list.
Proof.
  intros Hav Hmiss Hhit.
  destruct (find_orders_hit svc w ["orders"; "Orders"] "order"
              ["purchase_orders"; "transactions"] Hav eq_refl Hmiss Hhit)
    as (w' & E & K & _).
  exists w'. split; assumption.
Qed.

(** C4.  Connected, when no candidate yields a document the discovery
    returns None without raising, after one query per candidate, in the
    listed order, and says that no orders collection was found. *)
Theorem find_orders_not_found (svc : Service) (w : World) :
  available w = true ->
  all_miss svc (calls w) collections_to_try = true ->
  exists w',
    find_orders_by_criteria svc w = (Ok RNone, w') /\
    calls w' = (calls w ++ [Get "orders" 3; Get "Orders" 3; Get "order" 3;
                            Get "purchase_orders" 3; Get "transactions" 3])%list /\
    stdout w' = (stdout w ++ [(nl ++ "🔍 Searching for orders...")%string;
                              str_mul "=" 60;
                              "❌ No orders collection found with standard names"])%list.
Proof.
  intros Hav Hmiss.
  destruct (find_orders_miss svc w Hav Hmiss) as (w' & E & K & S & _).
  exists w'. repeat split; assumption.
Qed.

Lemma find_orders_not_found_witness :
  available (fresh CredValid None) = true /\
  all_miss svc_empty (calls (fresh CredValid None)) collections_to_try = true /\
  exists w',
    find_orders_by_criteria svc_empty (fresh CredValid None) = (Ok RNone, w') /\
    calls w' = [Get "orders" 3; Get "Orders" 3; Get "order" 3;
                Get "purchase_orders" 3; Get "transactions" 3].
Proof.
  repeat (split; [reflexivity|]).
  destruct (find_orders_not_found svc_empty (fresh CredValid None) eq_refl eq_refl)
    as (w' & E & K & _).
  exists w'. split; [exact E | exact K].
Defined.

Section Skipping.

Variable svc : Service.

Lemma all_miss_app hist names rest :
  all_miss svc hist (names ++ rest)
  = all_miss svc hist names && all_miss svc (hist ++ map probe names) rest.
Proof.
  revert hist. induction names as [|c names IH]; intros hist; simpl.
  - now rewrite app_nil_r.
  - rewrite IH, <- app_assoc. simpl. now rewrite andb_assoc.
Qed.

(** the world after the queries for [names] were sent, nothing else changed *)
Lemma try_collections_skip db names rest w :
  all_miss svc (calls w) names = true ->
  try_collections svc db (names ++ rest) w
  = try_collections svc db rest
      (mkWorld (cred_file w) (app w) (auth_log w) (calls w ++ map probe names)
               (stdout w) (out_file w)).
Proof.
  revert w. induction names as [|c names IH]; intros w Hmiss.
  - simpl. rewrite app_nil_r. now destruct w.
  - simpl in Hmiss. apply andb_true_iff in Hmiss as [Hc Hrest]. apply negb_true_iff in Hc.
    change ((c :: names) ++ rest) with (c :: (names ++ rest)).
    rewrite (try_collections_miss svc db c (names ++ rest) w Hc).
    rewrite (IH (asked (probe c) w) Hrest). simpl. now rewrite <- app_assoc.
Qed.

End Skipping.

(** C10.  Connected, when the fetch for a candidate raises (every
    candidate before it having yielded nothing), nothing is printed about
    it: after its query the output holds only the two header lines, and the
    discovery goes on with the candidates after it, in order, beginning
    with a query for the next one.  The step returns without raising, and
    what it returns is not the candidate that raised. *)
Theorem find_orders_skips_error (svc : Service) (w : World)
        (pre : list string) (name : string) (post : list string) (e : exn) :
  available w = true ->
  collections_to_try = pre ++ name :: post ->
  all_miss svc (calls w) pre = true ->
  query_get svc (calls w ++ map probe pre) name 3 = Raise e ->
  exists db w2 r w',
    stdout w2 = stdout w ++ [(nl ++ "🔍 Searching for orders...")%string; str_mul "=" 60] /\
    calls w2 = calls w ++ map probe (pre ++ [name]) /\
    find_orders_by_criteria svc w = try_collections svc db post w2 /\
    find_orders_by_criteria svc w = (Ok r, w') /\
    r <> RStr name /\
    match post with
    | next :: _ => exists more, calls w' = calls w2 ++ probe next :: more
    | [] => calls w' = calls w2
    end.
Proof.
  intros Hav Hsplit Hmiss Hraise.
  destruct (find_orders_connected svc w Hav) as (db & w0 & Hc & Hf & _ & Hs & E).
  assert (Hall : all_miss svc (calls w0) (pre ++ [name]) = true).
  { rewrite all_miss_app, Hc, Hmiss. simpl. now rewrite Hraise. }
  pose proof (try_collections_skip svc db (pre ++ [name]) post w0 Hall) as Hskip.
  rewrite <- app_assoc in Hskip. simpl in Hskip. rewrite <- Hsplit, <- E in Hskip.
  set (w2 := mkWorld (cred_file w0) (app w0) (auth_log w0)
                     (calls w0 ++ map probe (pre ++ [name])) (stdout w0) (out_file w0))
    in Hskip.
  destruct (no_raise_try_collections svc db post w2) as (r & w' & E2).
  exists db, w2, r, w'. repeat split.
  - simpl. exact Hs.
  - simpl. now rewrite Hc.
  - exact Hskip.
  - now rewrite Hskip.
  - intros ->. apply try_collections_result in E2 as [H|(n & Hin & H)]; [discriminate|].
    injection H as <-.
    pose proof collections_to_try_NoDup as Hnd. rewrite Hsplit in Hnd.
    apply (NoDup_split_later pre post name name Hnd Hin).
    apply in_or_app. right. now left.
  - destruct post as [|next post'].
    + simpl in E2. injection E2 as _ <-. reflexivity.
    + exact (try_collections_first_query svc db next post' w2 (Ok r) w' E2).
Qed.

Lemma find_orders_skips_error_witness :
  available (fresh CredValid None) = true /\
  collections_to_try = ["orders"] ++ "Orders" :: ["order"; "purchase_orders"; "transactions"] /\
  all_miss svc_order_third (calls (fresh CredValid None)) ["orders"] = true /\
  query_get svc_order_third (calls (fresh CredValid None) ++ map probe ["orders"]) "Orders" 3
  = Raise (Exception "permission denied") /\
  exists r w',
    find_orders_by_criteria svc_order_third (fresh CredValid None) = (Ok r, w') /\
    r <> RStr "Orders" /\
    exists more, calls w' = [Get "orders" 3; Get "Orders" 3; Get "order" 3] ++ more.
Proof.
  repeat (split; [reflexivity|]).
  destruct (find_orders_skips_error svc_order_third (fresh CredValid None)
              ["orders"] "Orders" ["order"; "purchase_orders"; "transactions"]
              (Exception "permission denied") eq_refl eq_refl eq_refl eq_refl)
    as (db & w2 & r & w' & _ & K2 & _ & E & Hne & more & K).
  exists r, w'. split; [exact E|]. split; [exact Hne|].
  exists more. rewrite K, K2. reflexivity.
Defined.

(** ** Connecting once *)

Lemma init_times_reuse (w : World) (session : nat) (n : nat) :
  app w = Some session ->
  init_times n w = (Ok (repeat (Some (Client session)) n), w).
Proof.
  intros Happ. induction n as [|n IH]; simpl.
  - reflexivity.
  - rewrite (bind_ok _ _ _ _ _ (init_firestore_reuse w session Happ)).
    rewrite (bind_ok _ _ _ _ _ IH). reflexivity.
Qed.

(** A call that yields a handle leaves an app behind, the one of the handle. *)
Lemma init_firestore_leaves_app (w w' : World) (session : nat) :
  init_firestore w = (Ok (Some (Client session)), w') -> app w' = Some session.
Proof.
  intros H. destruct (app w) as [s|] eqn:Happ.
  - rewrite (init_firestore_reuse w s Happ) in H. injection H as -> <-. exact Happ.
  - destruct (cred_file w) as [|why|] eqn:Hc.
    + now rewrite (init_firestore_missing w Happ Hc) in H.
    + now rewrite (init_firestore_invalid w why Happ Hc) in H.
    + rewrite (init_firestore_fresh w Happ Hc) in H. injection H as <- <-. reflexivity.
Qed.

(** C6.  Once an app exists, any number of calls of init_firestore in a
    row return a client of that same app and leave the world as it was: no
    check of the path, no read of the credential file, no new app.  The
    same holds in any later world reached by more queries and prints. *)
Theorem init_firestore_idempotent (w : World) (session : nat) :
  app w = Some session ->
  (forall n, init_times n w = (Ok (repeat (Some (Client session)) n), w)) /\
  (forall w', steady w w' -> init_firestore w' = (Ok (Some (Client session)), w')).
Proof.
  intros Happ. split.
  - intros n. now apply init_times_reuse.
  - intros w' (_ & _ & _ & _ & Hkeep & _). apply init_firestore_reuse. now apply Hkeep.
Qed.

Lemma init_firestore_idempotent_witness :
  let w := snd (init_firestore (fresh CredValid None)) in
  app w = Some 0 /\
  auth_log w = [PathChecked; CertificateRead; AppInitialized 0] /\
  init_times 3 w = (Ok [Some (Client 0); Some (Client 0); Some (Client 0)], w).
Proof.
  intros w. split; [reflexivity|]. split; [reflexivity|].
  exact (proj1 (init_firestore_idempotent w 0 eq_refl) 3).
Defined.

(** ** Missing credentials *)

(** Offline, a guarded step takes its [None] branch and sends no query. *)
Lemma offline_step {A} (none : M A) (k : Handle -> M A) (h : exn -> M A) (w : World) :
  offline w ->
  exists w1,
    offline w1 /\ calls w1 = calls w /\ out_file w1 = out_file w /\
    stdout w1 = stdout w ++ [("❌ Credentials file not found at " ++ cred_path)%string] /\
    try_except
      (db <- init_firestore ;;
       match db with
       | None => none
       | Some db => k db
       end) h w
    = try_except none h w1.
Proof.
  intros [Ha Hc].
  exists (mkWorld CredMissing None (auth_log w ++ [PathChecked]) (calls w)
                  (stdout w ++ [("❌ Credentials file not found at " ++ cred_path)%string])
                  (out_file w)).
  split; [split; reflexivity|]. do 3 (split; [reflexivity|]).
  unfold try_except at 1. rewrite (bind_ok _ _ _ _ _ (init_firestore_missing w Ha Hc)).
  reflexivity.
Qed.

Section Offline.

Variable svc : Service.

Lemma offline_explore_users_structure w :
  offline w ->
  exists w', explore_users_structure svc w = (Ok (RList []), w') /\
             offline w' /\ calls w' = calls w /\ out_file w' = out_file w.
Proof.
  intros H. unfold explore_users_structure. rewrite !bind_print.
  match goal with |- context [try_except (bind init_firestore ?f) ?h ?w0] =>
    destruct (offline_step (ret (RList [])) (fun db => f (Some db)) h w0 H)
      as (w1 & O & K & F & _ & E) end.
  cbv beta iota in E. exists w1. split; [exact E | auto].
Qed.

Lemma offline_find_orders_by_criteria w :
  offline w ->
  exists w', find_orders_by_criteria svc w = (Ok (RList []), w') /\
             offline w' /\ calls w' = calls w /\ out_file w' = out_file w.
Proof.
  intros H. unfold find_orders_by_criteria. rewrite !bind_print.
  match goal with |- context [try_except (bind init_firestore ?f) ?h ?w0] =>
    destruct (offline_step (ret (RList [])) (fun db => f (Some db)) h w0 H)
      as (w1 & O & K & F & _ & E) end.
  cbv beta iota in E. exists w1. split; [exact E | auto].
Qed.

Lemma offline_explore_products_structure w :
  offline w ->
  exists w', explore_products_structure svc w = (Ok (RList []), w') /\
             offline w' /\ calls w' = calls w /\ out_file w' = out_file w.
Proof.
  intros H. unfold explore_products_structure. rewrite !bind_print.
  match goal with |- context [try_except (bind init_firestore ?f) ?h ?w0] =>
    destruct (offline_step (ret (RList [])) (fun db => f (Some db)) h w0 H)
      as (w1 & O & K & F & _ & E) end.
  cbv beta iota in E. exists w1. split; [exact E | auto].
Qed.

Lemma offline_explore_collection_structure name limit w :
  offline w ->
  exists w', explore_collection_structure svc name limit w = (Ok (RList []), w') /\
             offline w' /\ calls w' = calls w /\ out_file w' = out_file w.
Proof.
  intros H. unfold explore_collection_structure. rewrite !bind_print.
  match goal with |- context [try_except (bind init_firestore ?f) ?h ?w0] =>
    destruct (offline_step (print "❌ Failed to initialize Firestore" ;; ret (RList []))
                (fun db => f (Some db)) h w0 H)
      as (w1 & O & K & F & _ & E) end.
  cbv beta iota in E. eexists. split; [exact E |].
  simpl. destruct O. repeat split; auto.
Qed.

Lemma offline_list_all_collections w :
  offline w ->
  exists w', list_all_collections svc w = (Ok tt, w') /\
             offline w' /\ calls w' = calls w /\ out_file w' = out_file w.
Proof.
  intros H. unfold list_all_collections. rewrite !bind_print.
  match goal with |- context [try_except (bind init_firestore ?f) ?h ?w0] =>
    destruct (offline_step (ret tt) (fun db => f (Some db)) h w0 H)
      as (w1 & O & K & F & _ & E) end.
  cbv beta iota in E. exists w1. split; [exact E | auto].
Qed.

Lemma offline_main w :
  offline w ->
  exists w', main svc w = (Ok tt, w') /\ calls w' = calls w /\ out_file w' = out_file w.
Proof.
  intros H. unfold main. rewrite !bind_print.
  match goal with |- context [bind _ _ ?w0] =>
    destruct (offline_explore_users_structure w0 H) as (w1 & E1 & O1 & K1 & F1) end.
  rewrite (bind_ok _ _ _ _ _ E1).
  destruct (offline_find_orders_by_criteria w1 O1) as (w2 & E2 & O2 & K2 & F2).
  rewrite (bind_ok _ _ _ _ _ E2).
  change (explore_orders svc (RList [])) with (@ret unit tt).
  unfold bind at 1, ret at 1.
  destruct (offline_explore_products_structure w2 O2) as (w3 & E3 & O3 & K3 & F3).
  rewrite (bind_ok _ _ _ _ _ E3).
  destruct (offline_list_all_collections w3 O3) as (w4 & E4 & O4 & K4 & F4).
  exists w4. split; [exact E4|]. simpl in K1, F1. split; congruence.
Qed.

End Offline.

(** C5.  In a process without an app, when nothing is found at the
    credential path: init_firestore prints that the file was not found and
    returns None; each step returns [[]] and sends no query; main completes
    without a query, leaves the output file as it was and exits with 0. *)
Theorem missing_credentials (svc : Service) (w : World) :
  app w = None ->
  cred_file w = CredMissing ->
  (exists w', init_firestore w = (Ok None, w') /\
              stdout w' = stdout w ++ [("❌ Credentials file not found at " ++ cred_path)%string] /\
              calls w' = calls w) /\
  (exists w', explore_users_structure svc w = (Ok (RList []), w') /\ calls w' = calls w) /\
  (exists w', find_orders_by_criteria svc w = (Ok (RList []), w') /\ calls w' = calls w) /\
  (forall name limit,
      exists w', explore_collection_structure svc name limit w = (Ok (RList []), w') /\
                 calls w' = calls w) /\
  (exists w', explore_products_structure svc w = (Ok (RList []), w') /\ calls w' = calls w) /\
  (exists w', main svc w = (Ok tt, w') /\ calls w' = calls w /\ out_file w' = out_file w) /\
  exit_code (fst (main svc w)) = 0%Z.
Proof.
  intros Ha Hc. assert (H : offline w) by (split; assumption).
  split; [|split; [|split; [|split; [|split; [|split]]]]].
  - eexists. split; [exact (init_firestore_missing w Ha Hc)|]. split; reflexivity.
  - destruct (offline_explore_users_structure svc w H) as (w' & E & _ & K & _); eauto.
  - destruct (offline_find_orders_by_criteria svc w H) as (w' & E & _ & K & _); eauto.
  - intros name limit.
    destruct (offline_explore_collection_structure svc name limit w H) as (w' & E & _ & K & _);
      eauto.
  - destruct (offline_explore_products_structure svc w H) as (w' & E & _ & K & _); eauto.
  - exact (offline_main svc w H).
  - destruct (offline_main svc w H) as (w' & E & _). now rewrite E.
Qed.

Lemma missing_credentials_witness :
  app (fresh CredMissing (Some "[]")) = None /\
  cred_file (fresh CredMissing (Some "[]")) = CredMissing /\
  (exists w', main svc_order_third (fresh CredMissing (Some "[]")) = (Ok tt, w') /\
              calls w' = [] /\ out_file w' = Some "[]") /\
  exit_code (fst (main svc_order_third (fresh CredMissing (Some "[]")))) = 0%Z.
Proof.
  split; [reflexivity|]. split; [reflexivity|].
  destruct (missing_credentials svc_order_third (fresh CredMissing (Some "[]"))
              eq_refl eq_refl) as (_ & _ & _ & _ & _ & Hmain & Hexit).
  split; [exact Hmain | exact Hexit].
Defined.

(** ** The steps, connected *)

Ltac run_connected svc Hav :=
  rewrite !bind_print;
  match goal with
  | |- context [try_except (bind init_firestore ?f) ?h ?w0] =>
      let none := eval cbv beta iota in (f None) in
      let body := eval cbv beta iota in (f (Some (Client 0))) in
      match body with
      | bind (collection_get _ _ ?n ?l) ?k =>
          let w1 := fresh "w1" in
          let K := fresh "K" in let S := fresh "S" in let F := fresh "F" in
          let C := fresh "C" in let Av := fresh "Av" in let E := fresh "E" in
          destruct (connected_query svc n l none k h w0 Hav) as (w1 & K & S & F & C & Av & E);
          cbv beta in E; rewrite E; clear E;
          cbn [calls stdout out_file cred_file snd print] in K, S, F, C |- *
      end
  end.

Lemma try_except_prints {A} (m : M A) h w :
  prints_only m ->
  exists a w', try_except m h w = (Ok a, w') /\ m w = (Ok a, w') /\ printed w w'.
Proof.
  intros P. destruct (P w) as (a & w' & E & Pr). exists a, w'.
  rewrite (try_except_ok _ _ _ _ _ E). auto.
Qed.

Lemma printed_available w w' : printed w w' -> available w = true -> available w' = true.
Proof. intros (c & a & _). unfold available. now rewrite c, a. Qed.

Section Connected.

Variable svc : Service.

Lemma explore_users_connected w :
  available w = true ->
  exists w',
    explore_users_structure svc w = (Ok RNone, w') /\
    calls w' = calls w ++ [Get "users" 3] /\
    out_file w' = out_file w /\ available w' = true /\
    (forall e, query_get svc (calls w) "users" 3 = Raise e ->
               stdout w' = stdout w ++ [(nl ++ "👥 Exploring users structure...")%string;
                                        str_mul "=" 60;
                                        ("❌ Error exploring users: " ++ exn_msg e)%string]).
Proof.
  intros Hav. unfold explore_users_structure. run_connected svc Hav.
  destruct (query_get svc (calls w) "users" 3) as [users|e].
  - match goal with |- context [try_except ?m ?h w1] =>
      assert (P : prints_only m) by prints;
      destruct (try_except_prints m h w1 P) as (a & w2 & E & E0 & Pr) end.
    destruct (bind_ret_inv _ _ _ _ _ E0) as (-> & _).
    exists w2. pose proof (printed_available _ _ Pr Av).
    destruct Pr as (c2 & a2 & _ & k2 & f2 & _).
    split; [exact E|]. repeat split; congruence.
  - eexists. split; [reflexivity|]. simpl. repeat split; try assumption.
    intros e' [= <-]. rewrite S, <- !app_assoc. reflexivity.
Qed.

Lemma explore_products_connected w :
  available w = true ->
  exists w',
    explore_products_structure svc w = (Ok RNone, w') /\
    calls w' = calls w ++ [Get "products" 5] /\
    out_file w' = out_file w /\ available w' = true /\
    (forall e, query_get svc (calls w) "products" 5 = Raise e ->
               stdout w' = stdout w ++ [(nl ++ "📦 Exploring products structure...")%string;
                                        str_mul "=" 60;
                                        ("❌ Error exploring products: " ++ exn_msg e)%string]).
Proof.
  intros Hav. unfold explore_products_structure. run_connected svc Hav.
  destruct (query_get svc (calls w) "products" 5) as [products|e].
  - match goal with |- context [try_except ?m ?h w1] =>
      assert (P : prints_only m) by prints;
      destruct (try_except_prints m h w1 P) as (a & w2 & E & E0 & Pr) end.
    rewrite bind_print in E0. destruct (bind_ret_inv _ _ _ _ _ E0) as (-> & _).
    exists w2. pose proof (printed_available _ _ Pr Av).
    destruct Pr as (c2 & a2 & _ & k2 & f2 & _).
    split; [exact E|]. repeat split; congruence.
  - eexists. split; [reflexivity|]. simpl. repeat split; try assumption.
    intros e' [= <-]. rewrite S, <- !app_assoc. reflexivity.
Qed.

Lemma explore_collection_connected name limit w :
  available w = true ->
  exists r w',
    explore_collection_structure svc name limit w = (Ok r, w') /\
    calls w' = calls w ++ [Get name limit] /\
    out_file w' = out_file w /\ available w' = true /\
    (forall e, query_get svc (calls w) name limit = Raise e ->
               r = RList [] /\
               stdout w' = stdout w ++ [(nl ++ "🔍 Exploring '" ++ name ++ "' collection...")%string;
                                        str_mul "=" 60;
                                        ("❌ Error exploring collection '" ++ name ++ "': "
                                           ++ exn_msg e)%string]).
Proof.
  intros Hav. unfold explore_collection_structure. run_connected svc Hav.
  destruct (query_get svc (calls w) name limit) as [docs|e].
  - match goal with |- context [try_except ?m ?h w1] =>
      assert (P : prints_only m) by prints;
      destruct (try_except_prints m h w1 P) as (a & w2 & E & E0 & Pr) end.
    exists a, w2. pose proof (printed_available _ _ Pr Av).
    destruct Pr as (c2 & a2 & _ & k2 & f2 & _).
    split; [exact E|]. repeat split; congruence.
  - eexists. eexists. split; [reflexivity|]. simpl.
    do 3 (split; [assumption|]). intros e' [= <-]. split; [reflexivity|].
    rewrite S, <- !app_assoc. reflexivity.
Qed.

(** The discovery, connected: it returns, and only queries were added. *)
Lemma find_orders_total w :
  exists r w', find_orders_by_criteria svc w = (Ok r, w') /\ steady w w'.
Proof.
  destruct (no_raise_find_orders_by_criteria svc w) as (r & w' & E).
  exists r, w'. split; [exact E|]. exact (frame_find_orders_by_criteria svc w _ _ E).
Qed.

Lemma explore_orders_total r w :
  exists w', explore_orders svc r w = (Ok tt, w') /\ steady w w'.
Proof.
  destruct (no_raise_explore_orders svc r w) as ([] & w' & E).
  exists w'. split; [exact E|]. exact (frame_explore_orders svc r w _ _ E).
Qed.

(** The registry step, connected: one call, and the file is written with
    the names when the call answers. *)
Lemma list_all_collections_connected w :
  available w = true ->
  exists w',
    list_all_collections svc w = (Ok tt, w') /\
    calls w' = calls w ++ [Collections] /\
    match list_collections svc (calls w) with
    | Ok names =>
        out_file w' = Some (json_dump names) /\
        stdout w' = stdout w ++ [(nl ++ "📋 Listing all collections...")%string;
                                 str_mul "=" 60;
                                 ("Available collections: "
                                    ++ py_repr (VList (map VStr names)))%string;
                                 "Collection names saved to: firestore_collections.json"]
    | Raise e =>
        out_file w' = out_file w /\
        stdout w' = stdout w ++ [(nl ++ "📋 Listing all collections...")%string;
                                 str_mul "=" 60;
                                 ("❌ Error listing collections: " ++ exn_msg e)%string]
    end.
Proof.
  intros Hav. unfold list_all_collections. rewrite !bind_print.
  match goal with |- context [try_except _ _ ?w0] =>
    destruct (init_firestore_available w0 Hav) as (db & w1 & Hi & Hc & Hs & Hf & _) end.
  unfold try_except. rewrite (bind_ok _ _ _ _ _ Hi). cbv beta iota.
  cbn [calls stdout out_file snd print] in Hc, Hs, Hf. clear Hi.
  destruct w1 as [c1 a1 al1 cs1 so1 f1]. cbn [calls stdout out_file] in Hc, Hs, Hf.
  subst cs1 so1 f1.
  unfold bind at 1. unfold collection_ids. cbv beta. cbn [calls].
  destruct (list_collections svc (calls w)) as [names|e].
  - eexists. split; [reflexivity|]. simpl. rewrite <- !app_assoc. auto.
  - eexists. split; [reflexivity|]. simpl. rewrite <- !app_assoc. auto.
Qed.

End Connected.

(** ** The whole run *)

Lemma last_app3 {A} (l : list A) (a b c d : A) : last (l ++ [a; b; c]) d = c.
Proof.
  replace (l ++ [a; b; c]) with ((l ++ [a; b]) ++ [c])
    by (rewrite <- app_assoc; reflexivity).
  apply last_last.
Qed.

Section Run.

Variable svc : Service.

(** Connected, main sends the users query, the queries of the discovery
    and of the exploration of what it found ([mid]), the products query and
    the listing call; the file holds the names when the listing answers and
    is left alone when it raises. *)
Lemma main_connected w :
  available w = true ->
  exists mid w',
    main svc w = (Ok tt, w') /\
    calls w' = (calls w ++ [Get "users" 3] ++ mid ++ [Get "products" 5]) ++ [Collections] /\
    match list_collections svc (calls w ++ [Get "users" 3] ++ mid ++ [Get "products" 5]) with
    | Ok names => out_file w' = Some (json_dump names)
    | Raise _ => out_file w' = out_file w
    end.
Proof.
  intros Hav. unfold main. rewrite !bind_print.
  match goal with |- context [bind _ _ ?w0] =>
    destruct (explore_users_connected svc w0 Hav) as (w1 & E1 & K1 & F1 & Av1 & _) end.
  cbn [calls out_file snd print] in K1, F1.
  rewrite (bind_ok _ _ _ _ _ E1).
  destruct (find_orders_total svc w1) as (r & w2 & E2 & (_ & F2 & [m2 K2] & _ & _ & Av2)).
  rewrite (bind_ok _ _ _ _ _ E2).
  destruct (explore_orders_total svc r w2) as (w3 & E3 & (_ & F3 & [m3 K3] & _ & _ & Av3)).
  rewrite (bind_ok _ _ _ _ _ E3).
  destruct (explore_products_connected svc w3 (Av3 (Av2 Av1))) as (w4 & E4 & K4 & F4 & Av4 & _).
  rewrite (bind_ok _ _ _ _ _ E4).
  destruct (list_all_collections_connected svc w4 Av4) as (w5 & E5 & K5 & H5).
  assert (K : calls w4 = calls w ++ [Get "users" 3] ++ (m2 ++ m3) ++ [Get "products" 5]).
  { rewrite K4, K3, K2, K1, <- !app_assoc. reflexivity. }
  exists (m2 ++ m3), w5. split; [exact E5|]. rewrite <- K. split; [exact K5|].
  destruct (list_collections svc (calls w4)) as [names|e].
  - exact (proj1 H5).
  - rewrite (proj1 H5). congruence.
Qed.

(** When the listing call raises, the last line printed is its error. *)
Lemma main_connected_listing_error w :
  available w = true ->
  exists mid w',
    main svc w = (Ok tt, w') /\
    calls w' = (calls w ++ [Get "users" 3] ++ mid ++ [Get "products" 5]) ++ [Collections] /\
    forall e,
      list_collections svc (calls w ++ [Get "users" 3] ++ mid ++ [Get "products" 5]) = Raise e ->
      out_file w' = out_file w /\
      last (stdout w') "" = ("❌ Error listing collections: " ++ exn_msg e)%string.
Proof.
  intros Hav. unfold main. rewrite !bind_print.
  match goal with |- context [bind _ _ ?w0] =>
    destruct (explore_users_connected svc w0 Hav) as (w1 & E1 & K1 & F1 & Av1 & _) end.
  cbn [calls out_file snd print] in K1, F1.
  rewrite (bind_ok _ _ _ _ _ E1).
  destruct (find_orders_total svc w1) as (r & w2 & E2 & (_ & F2 & [m2 K2] & _ & _ & Av2)).
  rewrite (bind_ok _ _ _ _ _ E2).
  destruct (explore_orders_total svc r w2) as (w3 & E3 & (_ & F3 & [m3 K3] & _ & _ & Av3)).
  rewrite (bind_ok _ _ _ _ _ E3).
  destruct (explore_products_connected svc w3 (Av3 (Av2 Av1))) as (w4 & E4 & K4 & F4 & Av4 & _).
  rewrite (bind_ok _ _ _ _ _ E4).
  destruct (list_all_collections_connected svc w4 Av4) as (w5 & E5 & K5 & H5).
  assert (K : calls w4 = calls w ++ [Get "users" 3] ++ (m2 ++ m3) ++ [Get "products" 5]).
  { rewrite K4, K3, K2, K1, <- !app_assoc. reflexivity. }
  exists (m2 ++ m3), w5. split; [exact E5|]. rewrite <- K. split; [exact K5|].
  intros e He. rewrite He in H5. destruct H5 as (F5 & S5). split.
  - congruence.
  - rewrite S5. apply last_app3.
Qed.

End Run.

(** C2, as the code has it.  Whatever the service answers and whatever the
    world: no step raises, main completes and the exit status is 0.
    Connected, a step whose fetch raises returns None or [[]] and prints a
    line that begins with the failure mark and ends with the message of the
    error; main then still sends the products query and after it the
    listing call, and the file holds the listed names whenever that call
    answers.  When the listing call itself raises, its error is the last
    line printed and no file is written. *)
Theorem soft_fail_isolation (svc : Service) (w : World) :
  (exists r w', explore_users_structure svc w = (Ok r, w')) /\
  (exists r w', find_orders_by_criteria svc w = (Ok r, w')) /\
  (forall name limit, exists r w', explore_collection_structure svc name limit w = (Ok r, w')) /\
  (exists r w', explore_products_structure svc w = (Ok r, w')) /\
  (exists w', main svc w = (Ok tt, w')) /\
  exit_code (fst (main svc w)) = 0%Z /\
  (available w = true ->
   (forall e, query_get svc (calls w) "users" 3 = Raise e ->
      exists w', explore_users_structure svc w = (Ok RNone, w') /\
                 last (stdout w') "" = ("❌ Error exploring users: " ++ exn_msg e)%string) /\
   (forall e, query_get svc (calls w) "products" 5 = Raise e ->
      exists w', explore_products_structure svc w = (Ok RNone, w') /\
                 last (stdout w') "" = ("❌ Error exploring products: " ++ exn_msg e)%string) /\
   (forall name limit e, query_get svc (calls w) name limit = Raise e ->
      exists w', explore_collection_structure svc name limit w = (Ok (RList []), w') /\
                 last (stdout w') ""
                 = ("❌ Error exploring collection '" ++ name ++ "': " ++ exn_msg e)%string) /\
   (all_miss svc (calls w) collections_to_try = true ->
      exists w', find_orders_by_criteria svc w = (Ok RNone, w') /\
                 last (stdout w') "" = "❌ No orders collection found with standard names") /\
   (exists mid w',
      main svc w = (Ok tt, w') /\
      calls w' = calls w ++ [Get "users" 3] ++ mid ++ [Get "products" 5; Collections] /\
      (forall names, list_collections svc (before_last (calls w')) = Ok names ->
                     out_file w' = Some (json_dump names)) /\
      (forall e, list_collections svc (before_last (calls w')) = Raise e ->
                 out_file w' = out_file w /\
                 last (stdout w') ""
                 = ("❌ Error listing collections: " ++ exn_msg e)%string))).
Proof.
  split; [|split; [|split; [|split; [|split; [|split]]]]].
  - apply no_raise_explore_users_structure.
  - apply no_raise_find_orders_by_criteria.
  - intros name limit. apply no_raise_explore_collection_structure.
  - apply no_raise_explore_products_structure.
  - destruct (no_raise_main svc w) as ([] & w' & E). eauto.
  - destruct (no_raise_main svc w) as ([] & w' & E). now rewrite E.
  - intros Hav. split; [|split; [|split; [|split]]].
    + intros e He. destruct (explore_users_connected svc w Hav) as (w' & E & _ & _ & _ & S).
      exists w'. split; [exact E|]. rewrite (S e He).
      apply last_app3.
    + intros e He. destruct (explore_products_connected svc w Hav) as (w' & E & _ & _ & _ & S).
      exists w'. split; [exact E|]. rewrite (S e He).
      apply last_app3.
    + intros name limit e He.
      destruct (explore_collection_connected svc name limit w Hav) as (r & w' & E & _ & _ & _ & S).
      destruct (S e He) as (-> & S'). exists w'. split; [exact E|]. rewrite S'.
      apply last_app3.
    + intros Hmiss. destruct (find_orders_miss svc w Hav Hmiss) as (w' & E & _ & S & _).
      exists w'. split; [exact E|]. rewrite S.
      apply last_app3.
    + destruct (main_connected svc w Hav) as (mid & w' & E & K & H).
      exists mid, w'. split; [exact E|].
      assert (B : before_last (calls w') = calls w ++ [Get "users" 3] ++ mid ++ [Get "products" 5]).
      { unfold before_last. rewrite K. apply removelast_last. }
      split; [rewrite K, <- !app_assoc; reflexivity|]. split.
      * intros names Hn. rewrite B in Hn. now rewrite Hn in H.
      * destruct (main_connected_listing_error svc w Hav) as (mid' & w'' & E' & K' & H').
        rewrite E in E'. injection E' as <-.
        intros e He. apply H'. unfold before_last in He.
        now rewrite K', removelast_last in He.
Qed.

Lemma soft_fail_isolation_witness :
  available (fresh CredValid None) = true /\
  query_get svc_order_third
    [Get "users" 3; Get "orders" 3; Get "Orders" 3; Get "order" 3; Get "order" 3]
    "products" 5 = Raise (Exception "deadline exceeded") /\
  exists w',
    main svc_order_third (fresh CredValid None) = (Ok tt, w') /\
    calls w' = [Get "users" 3; Get "orders" 3; Get "Orders" 3; Get "order" 3; Get "order" 3;
                Get "products" 5; Collections] /\
    out_file w' = Some (json_dump ["users"; "order"]).
Proof.
  split; [reflexivity|]. split; [reflexivity|].
  destruct (soft_fail_isolation svc_order_third (fresh CredValid None))
    as (_ & _ & _ & _ & _ & _ & H).
  destruct (H eq_refl) as (_ & _ & _ & _ & mid & w' & E & K & Hok & _).
  exists w'. split; [exact E|].
  assert (E' : snd (main svc_order_third (fresh CredValid None)) = w') by now rewrite E.
  split.
  - rewrite <- E'. reflexivity.
  - apply Hok. rewrite <- E'. reflexivity.
Defined.

(** C2, as stated, asks that the file be written for every behaviour of
    the service.  With a service that raises on every call the run
    completes and exits with 0, the listing call is sent, and no file
    exists afterwards. *)
Lemma soft_fail_no_file_when_listing_raises :
  fst (run svc_down CredValid None) = Ok tt /\
  last (calls (snd (run svc_down CredValid None))) (Get "" 0) = Collections /\
  last (stdout (snd (run svc_down CredValid None))) ""
  = "❌ Error listing collections: unavailable" /\
  out_file (snd (run svc_down CredValid None)) = None /\
  ~ (forall svc : Service,
        exists content, out_file (snd (run svc CredValid None)) = Some content).
Proof.
  assert (F : out_file (snd (run svc_down CredValid None)) = None) by reflexivity.
  repeat split; try reflexivity.
  intros H. destruct (H svc_down) as (content & Hc). rewrite F in Hc. discriminate.
Qed.

(** ** The registry file *)

(** Connected in a new process, a run leaves in the file the dump of the
    names its listing call answered, whatever the file held before. *)
Lemma run_writes_registry (svc : Service) (file : option string) (names : list string) :
  list_collections svc (before_last (calls (snd (run svc CredValid file)))) = Ok names ->
  fst (run svc CredValid file) = Ok tt /\
  out_file (snd (run svc CredValid file)) = Some (json_dump names).
Proof.
  unfold run.
  destruct (main_connected svc (fresh CredValid file) eq_refl) as (mid & w' & E & K & H).
  rewrite E. cbn [fst snd]. intros Hn. split; [reflexivity|].
  unfold before_last in Hn. rewrite K, removelast_last in Hn.
  now rewrite Hn in H.
Qed.

(** *** reading the file back *)

Lemma str_app_assoc (a b c : string) : ((a ++ b) ++ c = a ++ (b ++ c))%string.
Proof. induction a as [|x a IH]; simpl; [reflexivity | now rewrite IH]. Qed.

Lemma json_scan_char (c : ascii) (tail : string) :
  json_scan true (json_char c ++ tail) = push c (json_scan true tail).
Proof.
  destruct c as [[] [] [] [] [] [] [] []]; reflexivity.
Qed.

Lemma json_scan_chars (s tail : string) :
  json_scan true (json_chars s ++ tail) = push_all s (json_scan true tail).
Proof.
  induction s as [|c s IH]; simpl; [reflexivity|].
  now rewrite str_app_assoc, json_scan_char, IH.
Qed.

Lemma push_all_item (s : string) (items : list string) :
  push_all s (Some (EmptyString :: items)) = Some (s :: items).
Proof. induction s as [|c s IH]; simpl; [reflexivity | now rewrite IH]. Qed.

Lemma json_scan_items (name : string) (rest : list string) :
  json_scan true (items_text name rest) = Some (name :: rest).
Proof.
  revert name. induction rest as [|next rest IH]; intros name; cbn [items_text].
  - rewrite json_scan_chars.
    change (json_scan true (String dquote (nl ++ "]")))
      with (Some [EmptyString]).
    apply push_all_item.
  - rewrite json_scan_chars.
    change (json_scan true (String dquote ("," ++ nl ++ "  " ++ String dquote (items_text next rest))))
      with (option_map (cons EmptyString) (json_scan true (items_text next rest))).
    rewrite IH. apply push_all_item.
Qed.

Lemma json_dump_items (name : string) (rest : list string) :
  json_dump (name :: rest) = ("[" ++ nl ++ "  " ++ String dquote (items_text name rest))%string.
Proof.
  unfold json_dump. do 3 f_equal.
  revert name. induction rest as [|next rest IH]; intros name.
  - cbn [map String.concat items_text]. unfold json_string.
    cbn [append]. f_equal. now rewrite str_app_assoc.
  - change (String.concat ("," ++ nl ++ "  ") (map json_string (name :: next :: rest)))
      with (json_string name ++ ("," ++ nl ++ "  ")
              ++ String.concat ("," ++ nl ++ "  ") (map json_string (next :: rest)))%string.
    rewrite !str_app_assoc, IH. cbn [items_text]. unfold json_string.
    cbn [append]. f_equal. rewrite str_app_assoc. reflexivity.
Qed.

(** Reading back what was dumped gives the names, in order. *)
Lemma json_load_dump (names : list string) : json_load (json_dump names) = Some names.
Proof.
  destruct names as [|name rest]; [reflexivity|].
  rewrite json_dump_items. apply json_scan_items.
Qed.

Lemma json_dump_injective (names1 names2 : list string) :
  json_dump names1 = json_dump names2 -> names1 = names2.
Proof.
  intros H. apply (f_equal json_load) in H. rewrite !json_load_dump in H. congruence.
Qed.

(** C7.  After two runs in a row, each connected in a process of its own,
    the file firestore_collections.json holds the dump of the names the
    listing call of the second run answered, and nothing of what the first
    run wrote or of what was there before: read back, the file gives these
    names, in the order the service returned them.  The dump of no name is
    "[]"; otherwise it has one name per line, indented by two spaces. *)
Theorem registry_overwritten (svc1 svc2 : Service) (file0 : option string)
        (names2 : list string) :
  list_collections svc2 (before_last (calls (snd (second_run svc1 svc2 file0)))) = Ok names2 ->
  fst (second_run svc1 svc2 file0) = Ok tt /\
  out_file (snd (second_run svc1 svc2 file0)) = Some (json_dump names2) /\
  option_map json_load (out_file (snd (second_run svc1 svc2 file0))) = Some (Some names2).
Proof.
  intros Hn. unfold second_run in *.
  destruct (run_writes_registry svc2 _ names2 Hn) as (E & F).
  split; [exact E|]. split; [exact F|].
  rewrite F. cbn [option_map]. now rewrite json_load_dump.
Qed.

Lemma registry_overwritten_witness :
  out_file (snd (run svc_order_third CredValid (Some "stale"))) = Some (json_dump ["users"; "order"]) /\
  list_collections svc_warming_up
    (before_last (calls (snd (second_run svc_order_third svc_warming_up (Some "stale")))))
  = Ok ["Orders"] /\
  fst (second_run svc_order_third svc_warming_up (Some "stale")) = Ok tt /\
  out_file (snd (second_run svc_order_third svc_warming_up (Some "stale")))
  = Some ("[" ++ nl ++ "  " ++ String dquote "Orders" ++ String dquote "" ++ nl ++ "]")%string.
Proof.
  split; [reflexivity|]. split; [reflexivity|].
  destruct (registry_overwritten svc_order_third svc_warming_up (Some "stale") ["Orders"] eq_refl)
    as (E & F & _).
  split; [exact E | exact F].
Defined.

(** ** What the explorations print *)

Lemma emit_nil w : emit [] w = w.
Proof. destruct w. unfold emit; simpl. now rewrite app_nil_r. Qed.

Lemma emit_emit l1 l2 w : emit l2 (emit l1 w) = emit (l1 ++ l2) w.
Proof. unfold emit; simpl. now rewrite app_assoc. Qed.

Lemma bind_print_emit {B} line (k : unit -> M B) w :
  bind (print line) k w = k tt (emit [line] w).
Proof. reflexivity. Qed.

Lemma bind_assoc {A B C} (m : M A) (f : A -> M B) (g : B -> M C) w :
  bind (bind m f) g w = bind m (fun x => bind (f x) g) w.
Proof. unfold bind. destruct (m w) as [[a|e] w1]; reflexivity. Qed.

Lemma for_each_print {A} (l : list A) (f : A -> string) w :
  for_each l (fun x => print (f x)) w = (Ok tt, emit (map f l) w).
Proof.
  revert w. induction l as [|x l IH]; intros w; simpl.
  - now rewrite emit_nil.
  - rewrite bind_print_emit, IH, emit_emit. reflexivity.
Qed.

Lemma print_fields_emit fields shown d w :
  print_fields fields shown d w = (Ok tt, emit (whitelisted_lines fields shown d) w).
Proof.
  unfold print_fields, whitelisted_lines. revert w.
  induction fields as [|field fields IH]; intros w; simpl.
  - now rewrite emit_nil.
  - destruct (dict_get field d) as [value|].
    + rewrite bind_print_emit, IH, emit_emit. reflexivity.
    + unfold bind at 1, ret at 1. rewrite IH. reflexivity.
Qed.

Lemma explore_docs_emit docs samples w :
  explore_docs docs samples w
  = (Ok (samples ++ filter has_data (map snd docs)), emit (flat_map doc_lines docs) w).
Proof.
  revert samples w. induction docs as [|[i doc] docs IH]; intros samples w.
  - simpl. now rewrite emit_nil, app_nil_r.
  - cbn [explore_docs]. rewrite bind_print_emit.
    cbn [flat_map map filter snd]. unfold doc_lines at 1, has_data at 1. cbn [fst snd].
    destruct (data doc) as [|kv d] eqn:Hd.
    + rewrite bind_print_emit, IH, !emit_emit. rewrite <- ?app_assoc. reflexivity.
    + rewrite <- Hd.
      rewrite (bind_ok _ _ _ _ _ (for_each_print (data doc) _ _)).
      rewrite IH, !emit_emit. rewrite <- ?app_assoc. reflexivity.
Qed.

Lemma map_snd_enumerate {A} (l : list A) start : map snd (enumerate l start) = l.
Proof.
  revert start. induction l as [|x l IH]; intros start; simpl; [|rewrite IH]; reflexivity.
Qed.

Section Output.

Variable svc : Service.

(** Connected and answered, explore_collection_structure prints its three
    header lines and then, for each document, [doc_lines]; it returns the
    documents that hold data. *)
Lemma explore_collection_output name limit docs w :
  available w = true ->
  query_get svc (calls w) name limit = Ok docs ->
  exists w',
    explore_collection_structure svc name limit w = (Ok (RList (filter has_data docs)), w') /\
    stdout w' = stdout w
                ++ [(nl ++ "🔍 Exploring '" ++ name ++ "' collection...")%string;
                    str_mul "=" 60;
                    ("Found " ++ str_nat (List.length docs) ++ " documents in '"
                              ++ name ++ "'")%string]
                ++ flat_map doc_lines (enumerate docs 1).
Proof.
  intros Hav Hq. unfold explore_collection_structure. run_connected svc Hav.
  rewrite Hq. unfold try_except. rewrite bind_print_emit.
  rewrite (bind_ok _ _ _ _ _ (explore_docs_emit _ _ _)).
  rewrite map_snd_enumerate, emit_emit. unfold ret.
  eexists. split; [reflexivity|]. cbn [stdout emit]. rewrite S, <- ?app_assoc. reflexivity.
Qed.

(** Connected and answered, explore_products_structure prints its three
    header lines and then, for each product, [product_lines]. *)
Lemma explore_products_output products w :
  available w = true ->
  query_get svc (calls w) "products" 5 = Ok products ->
  exists w',
    explore_products_structure svc w = (Ok RNone, w') /\
    stdout w' = stdout w
                ++ [(nl ++ "📦 Exploring products structure...")%string;
                    str_mul "=" 60;
                    ("Found " ++ str_nat (List.length products) ++ " products")%string]
                ++ flat_map product_lines (enumerate products 1).
Proof.
  intros Hav Hq. unfold explore_products_structure. run_connected svc Hav.
  rewrite Hq. unfold try_except. rewrite bind_print_emit.
  assert (L : forall l w0,
             for_each l
               (fun ip : nat * Document =>
                  print (nl ++ "📦 Product " ++ str_nat (fst ip)
                            ++ " (ID: " ++ id (snd ip) ++ "):")%string ;;
                  print_fields product_fields product_value (data (snd ip))) w0
             = (Ok tt, emit (flat_map product_lines l) w0)).
  { induction l as [|ip l IH]; intros w0; cbn [for_each flat_map].
    - unfold ret. now rewrite emit_nil.
    - rewrite bind_assoc, bind_print_emit.
      rewrite (bind_ok _ _ _ _ _ (print_fields_emit _ _ _ _)).
      rewrite IH, !emit_emit. unfold product_lines at 2. rewrite <- ?app_assoc. reflexivity. }
  rewrite (bind_ok _ _ _ _ _ (L _ _)). rewrite emit_emit. unfold ret.
  eexists. split; [reflexivity|]. cbn [stdout emit]. rewrite S, <- ?app_assoc. reflexivity.
Qed.

End Output.

(** ** Truncation *)



Lemma in_enumerate {A} (x : A) (l : list A) start :
  In x l -> exists i, In (i, x) (enumerate l start).
Proof.
  revert start. induction l as [|y l IH]; intros start; simpl; [intros []|].
  intros [->|H].
  - exists start. now left.
  - destruct (IH (S start) H) as (i & Hi). exists i. now right.
Qed.

Lemma field_line_in_doc_lines i doc key value :
  In (key, value) (data doc) -> In (field_line key value) (doc_lines (i, doc)).
Proof.
  intros H. unfold doc_lines. cbn [fst snd]. right.
  destruct (data doc) as [|kv d] eqn:Hd; [contradiction|].
  apply (in_map (fun kv => field_line (fst kv) (snd kv)) _ (key, value)) in H. exact H.
Qed.

(** Connected and answered, every field of every document fetched has its
    [field_line] in the output. *)
Lemma explore_collection_shows_fields svc name limit docs w doc key value :
  available w = true ->
  query_get svc (calls w) name limit = Ok docs ->
  In doc docs -> In (key, value) (data doc) ->
  exists w',
    explore_collection_structure svc name limit w = (Ok (RList (filter has_data docs)), w') /\
    In (field_line key value) (stdout w').
Proof.
  intros Hav Hq Hdoc Hfield.
  destruct (explore_collection_output svc name limit docs w Hav Hq) as (w' & E & S).
  exists w'. split; [exact E|]. rewrite S.
  apply in_or_app. right. apply in_or_app. right.
  destruct (in_enumerate doc docs 1 Hdoc) as (i & Hi).
  apply in_flat_map. exists (i, doc). split; [exact Hi|].
  now apply field_line_in_doc_lines.
Qed.

Lemma field_line_long_str key s :
  (100 < length s)%nat ->
  field_line key (VStr s)
  = ("  " ++ key ++ ": (str) " ++ substring 0 50 s
          ++ "...(" ++ str_nat (length s) ++ " chars)")%string.
Proof.
  intros H. unfold field_line, display_value.
  apply Nat.ltb_lt in H. now rewrite H.
Qed.

Lemma field_line_long_list key items :
  (3 < List.length items)%nat ->
  field_line key (VList items)
  = ("  " ++ key ++ ": (list) [" ++ str_nat (List.length items) ++ " items: "
          ++ py_repr (VList (firstn 2 items)) ++ "...]")%string.
Proof.
  intros H. unfold field_line, display_value.
  apply Nat.ltb_lt in H. now rewrite H.
Qed.

Lemma field_line_large_dict key entries :
  (5 < List.length entries)%nat ->
  field_line key (VDict entries)
  = ("  " ++ key ++ ": (dict) {" ++ str_nat (List.length entries) ++ " keys: "
          ++ py_repr (VList (map VStr (firstn 3 (map fst entries)))) ++ "...}")%string.
Proof.
  intros H. unfold field_line, display_value.
  apply Nat.ltb_lt in H. now rewrite H.
Qed.




(** C8.  The thresholds of the rendering of explore_collection_structure,
    whose output holds [field_line] for every field of every fetched
    document: a text of at most 100 characters is shown as it is and a
    longer one cut to 50; a list of at most 3 items is shown in full and a
    longer one by its first 2; a mapping of at most 5 keys is shown in full
    and a larger one by its first 3 keys. *)
Theorem explore_thresholds (key : string) :
  (forall s, (length s <= 100)%nat ->
     field_line key (VStr s) = ("  " ++ key ++ ": (str) " ++ s)%string) /\
  (forall s, (100 < length s)%nat ->
     field_line key (VStr s)
     = ("  " ++ key ++ ": (str) " ++ substring 0 50 s
             ++ "...(" ++ str_nat (length s) ++ " chars)")%string) /\
  (forall items, (List.length items <= 3)%nat ->
     field_line key (VList items)
     = ("  " ++ key ++ ": (list) " ++ py_repr (VList items))%string) /\
  (forall items, (3 < List.length items)%nat ->
     field_line key (VList items)
     = ("  " ++ key ++ ": (list) [" ++ str_nat (List.length items) ++ " items: "
             ++ py_repr (VList (firstn 2 items)) ++ "...]")%string) /\
  (forall entries, (List.length entries <= 5)%nat ->
     field_line key (VDict entries)
     = ("  " ++ key ++ ": (dict) " ++ py_repr (VDict entries))%string) /\
  (forall entries, (5 < List.length entries)%nat ->
     field_line key (VDict entries)
     = ("  " ++ key ++ ": (dict) {" ++ str_nat (List.length entries) ++ " keys: "
             ++ py_repr (VList (map VStr (firstn 3 (map fst entries)))) ++ "...}")%string) /\
  (forall svc w name limit docs doc value,
     available w = true ->
     query_get svc (calls w) name limit = Ok docs ->
     In doc docs -> In (key, value) (data doc) ->
     In (field_line key value) (stdout (snd (explore_collection_structure svc name limit w)))).
Proof.
  repeat split.
  - intros s H. unfold field_line, display_value.
    assert (E : (100 <? length s)%nat = false) by (apply Nat.ltb_ge; exact H).
    now rewrite E.
  - intros s H. now apply field_line_long_str.
  - intros items H. unfold field_line, display_value.
    assert (E : (3 <? List.length items)%nat = false) by (apply Nat.ltb_ge; exact H).
    now rewrite E.
  - intros items H. now apply field_line_long_list.
  - intros entries H. unfold field_line, display_value.
    assert (E : (5 <? List.length entries)%nat = false) by (apply Nat.ltb_ge; exact H).
    now rewrite E.
  - intros entries H. now apply field_line_large_dict.
  - intros svc w name limit docs doc value Hav Hq Hdoc Hf.
    destruct (explore_collection_shows_fields svc name limit docs w doc key value
                Hav Hq Hdoc Hf) as (w' & E & Hin).
    now rewrite E.
Qed.

Lemma explore_thresholds_witness :
  (length (str_mul "0123456789" 10) <= 100)%nat /\
  field_line "text" (VStr (str_mul "0123456789" 10))
  = ("  text: (str) " ++ str_mul "0123456789" 10)%string /\
  (100 < length (str_mul "0123456789" 10 ++ "x"))%nat /\
  field_line "text" (VStr (str_mul "0123456789" 10 ++ "x"))
  = ("  text: (str) " ++ str_mul "0123456789" 5 ++ "...(101 chars)")%string /\
  (List.length [VInt 1; VInt 2; VInt 3] <= 3)%nat /\
  field_line "tags" (VList [VInt 1; VInt 2; VInt 3]) = "  tags: (list) [1, 2, 3]"%string /\
  (List.length [("a", VInt 1); ("b", VInt 2); ("c", VInt 3); ("d", VInt 4); ("e", VNone)] <= 5)%nat /\
  field_line "m" (VDict [("a", VInt 1); ("b", VInt 2); ("c", VInt 3); ("d", VInt 4); ("e", VNone)])
  = "  m: (dict) {'a': 1, 'b': 2, 'c': 3, 'd': 4, 'e': None}"%string.
Proof.
  destruct (explore_thresholds "text") as (Hs & Hl & _).
  destruct (explore_thresholds "tags") as (_ & _ & Hi & _).
  destruct (explore_thresholds "m") as (_ & _ & _ & _ & Hd & _).
  split; [vm_compute; lia|]. split; [apply Hs; vm_compute; lia|].
  split; [vm_compute; lia|]. split; [apply Hl; vm_compute; lia|].
  split; [simpl; lia|]. split; [apply Hi; simpl; lia|].
  split; [simpl; lia|]. apply Hd; simpl; lia.
Defined.

(** ** The products step *)

Lemma append_inj_l (s a b : string) : (s ++ a)%string = (s ++ b)%string -> a = b.
Proof. induction s as [|c s IH]; simpl; [auto | intros [= H]; auto]. Qed.

Lemma flat_map_ext_in {A B} (f g : A -> list B) (l : list A) :
  (forall x, In x l -> f x = g x) -> flat_map f l = flat_map g l.
Proof.
  induction l as [|x l IH]; simpl; intros H; [reflexivity|].
  rewrite (H x (or_introl eq_refl)), IH; auto.
Qed.

Lemma existsb_eqb_false (k : string) (fields : list string) (field : string) :
  existsb (String.eqb k) fields = false -> In field fields -> String.eqb field k = false.
Proof.
  intros He Hin. apply String.eqb_neq. intros ->.
  assert (existsb (String.eqb k) fields = true).
  { apply existsb_exists. exists k. split; [exact Hin | apply String.eqb_refl]. }
  congruence.
Qed.

(** Looking up a whitelisted field does not see the fields outside the
    whitelist. *)
Lemma dict_get_filter (fields : list string) (field : string) (d : list (string * Value)) :
  In field fields ->
  dict_get field (filter (fun kv => existsb (String.eqb (fst kv)) fields) d) = dict_get field d.
Proof.
  intros Hin. induction d as [|[k v] d IH]; simpl; [reflexivity|].
  destruct (existsb (String.eqb k) fields) eqn:He; simpl.
  - now rewrite IH.
  - now rewrite (existsb_eqb_false k fields field He Hin).
Qed.

Lemma whitelisted_lines_filter fields shown d :
  whitelisted_lines fields shown d
  = whitelisted_lines fields shown (filter (fun kv => existsb (String.eqb (fst kv)) fields) d).
Proof.
  unfold whitelisted_lines. apply flat_map_ext_in. intros field Hin.
  now rewrite dict_get_filter.
Qed.

Lemma whitelisted_lines_in fields shown d line :
  In line (whitelisted_lines fields shown d) ->
  exists field value,
    In field fields /\ dict_get field d = Some value /\
    line = ("  " ++ field ++ ": " ++ py_str (shown value))%string.
Proof.
  unfold whitelisted_lines. intros H. apply in_flat_map in H as (field & Hin & Hl).
  destruct (dict_get field d) as [value|] eqn:Hg; [|contradiction].
  destruct Hl as [<-|[]]. now exists field, value.
Qed.

(** C9.  In explore_products_structure a text longer than 100 characters
    is shown as its first 50 characters followed by "..." and nothing more,
    where explore_collection_structure adds the length.  Connected and
    answered, the step prints for each product one header and then lines
    for the fields name, sku, price, category, supplierId, uom and
    description that the product holds, in this order, and for no other
    field: the output is the same when every other field is removed from
    the products. *)
Theorem products_rendering (svc : Service) (w : World) (products : list Document) :
  available w = true ->
  query_get svc (calls w) "products" 5 = Ok products ->
  (forall s, (100 < length s)%nat ->
     py_str (product_value (VStr s)) = (substring 0 50 s ++ "...")%string /\
     py_str (display_value (VStr s))
     = (substring 0 50 s ++ "...(" ++ str_nat (length s) ++ " chars)")%string /\
     py_str (product_value (VStr s)) <> py_str (display_value (VStr s))) /\
  (forall s, (length s <= 100)%nat -> py_str (product_value (VStr s)) = s) /\
  exists w',
    explore_products_structure svc w = (Ok RNone, w') /\
    stdout w' = stdout w
                ++ [(nl ++ "📦 Exploring products structure...")%string;
                    str_mul "=" 60;
                    ("Found " ++ str_nat (List.length products) ++ " products")%string]
                ++ flat_map product_lines (enumerate products 1) /\
    (forall ip line,
       In line (product_lines ip) ->
       line = (nl ++ "📦 Product " ++ str_nat (fst ip) ++ " (ID: " ++ id (snd ip) ++ "):")%string
       \/ exists field value,
            In field ["name"; "sku"; "price"; "category"; "supplierId"; "uom"; "description"]
            /\ dict_get field (data (snd ip)) = Some value
            /\ line = ("  " ++ field ++ ": " ++ py_str (product_value value))%string) /\
    (forall ip,
       product_lines ip
       = product_lines
           (fst ip,
            mkDocument (id (snd ip))
              (filter (fun kv => existsb (String.eqb (fst kv))
                                   ["name"; "sku"; "price"; "category"; "supplierId"; "uom";
                                    "description"])
                      (data (snd ip))))).
Proof.
  intros Hav Hq. split; [|split].
  - intros s H. unfold product_value, display_value.
    apply Nat.ltb_lt in H. rewrite H. cbn [py_str].
    split; [reflexivity|]. split; [reflexivity|].
    intros E. apply append_inj_l in E. discriminate.
  - intros s H. unfold product_value.
    assert (E : (100 <? length s)%nat = false) by (apply Nat.ltb_ge; exact H).
    now rewrite E.
  - destruct (explore_products_output svc products w Hav Hq) as (w' & E & S).
    exists w'. split; [exact E|]. split; [exact S|]. split.
    + intros ip line [<-|H]; [now left|]. right.
      exact (whitelisted_lines_in product_fields product_value _ line H).
    + intros ip. unfold product_lines. cbn [fst snd id data].
      now rewrite (whitelisted_lines_filter product_fields).
Qed.

Lemma products_rendering_witness :
  available (fresh CredValid None) = true /\
  query_get svc_wide (calls (fresh CredValid None)) "products" 5 = Ok [sample_wide] /\
  exists w',
    explore_products_structure svc_wide (fresh CredValid None) = (Ok RNone, w') /\
    stdout w' = [(nl ++ "📦 Exploring products structure...")%string;
                 str_mul "=" 60;
                 "Found 1 products"%string;
                 (nl ++ "📦 Product 1 (ID: w-1):")%string;
                 "  name: widget"%string;
                 ("  description: " ++ substring 0 50 (str_mul "lorem ipsum " 10) ++ "...")%string].
Proof.
  split; [reflexivity|]. split; [reflexivity|].
  destruct (products_rendering svc_wide (fresh CredValid None) [sample_wide] eq_refl eq_refl)
    as (_ & _ & w' & E & S & _).
  exists w'. split; [exact E | exact S].
Defined.

(** ** Runs on the sample services *)

Example repr_plain : repr_str "abc" = "'abc'"%string.
Proof. reflexivity. Qed.

Example repr_with_single_quote :
  repr_str "it's" = String dquote ("it's" ++ String dquote "")%string.
Proof. reflexivity. Qed.

Example repr_escapes :
  repr_str ("a" ++ nl ++ "b" ++ String (ascii_of_nat 233) "")%string
  = ("'a" ++ String backslash "nb" ++ String (ascii_of_nat 233) "'")%string.
Proof. reflexivity. Qed.

Example json_dump_empty : json_dump [] = "[]"%string.
Proof. reflexivity. Qed.

Example json_dump_two :
  json_dump ["users"; "order"]
  = ("[" ++ nl ++ "  " ++ String dquote "users" ++ String dquote ","
         ++ nl ++ "  " ++ String dquote "order" ++ String dquote ""
         ++ nl ++ "]")%string.
Proof. reflexivity. Qed.

Example json_string_escapes :
  json_string ("a" ++ String backslash "b" ++ nl ++ String (ascii_of_nat 233) "")%string
  = (String dquote "a" ++ String backslash (String backslash "b")
       ++ String backslash "n" ++ String backslash "u00e9" ++ String dquote "")%string.
Proof. reflexivity. Qed.

(** The discovery on the service whose third candidate is the first to
    hold a document: what is printed and what is asked. *)
Example discovery_order_third :
  find_orders_by_criteria svc_order_third (fresh CredValid None)
  = (Ok (RStr "order"),
     mkWorld CredValid (Some 0) [PathChecked; CertificateRead; AppInitialized 0]
             [Get "orders" 3; Get "Orders" 3; Get "order" 3]
             [(nl ++ "🔍 Searching for orders...")%string;
              str_mul "=" 60;
              "✅ Found orders in collection: 'order'"%string;
              "  Order ID: o-17"%string;
              "    Key fields: status: open, total: 12, items: [1, 2, 3, 4]"%string]
             None).
Proof. reflexivity. Qed.

(** A service whose answers depend on the calls before: the users query
    and the first candidate fail, the second candidate is accepted. *)
Example run_warming_up :
  fst (run svc_warming_up CredValid None) = Ok tt /\
  calls (snd (run svc_warming_up CredValid None))
  = [Get "users" 3; Get "orders" 3; Get "Orders" 3; Get "Orders" 3; Get "products" 5;
     Collections] /\
  out_file (snd (run svc_warming_up CredValid None)) = Some (json_dump ["Orders"]).
Proof. repeat split; reflexivity. Qed.

(** An invalid credential file: every step reports the error, no query is
    sent, the file is left alone, the run completes. *)
Example run_invalid_credentials :
  run svc_order_third (CredInvalid (ValueError "Invalid service account certificate"))
      (Some "[]")
  = (Ok tt,
     mkWorld (CredInvalid (ValueError "Invalid service account certificate")) None
       [PathChecked; CertificateRead; PathChecked; CertificateRead;
        PathChecked; CertificateRead; PathChecked; CertificateRead]
       []
       ["🔍 FIRESTORE EXPLORATION"%string;
        str_mul "=" 80;
        "Exploring Firestore collections to understand data structure for API..."%string;
        (nl ++ "👥 Exploring users structure...")%string;
        str_mul "=" 60;
        "❌ Error exploring users: Invalid service account certificate"%string;
        (nl ++ "🔍 Searching for orders...")%string;
        str_mul "=" 60;
        "❌ Error searching for orders: Invalid service account certificate"%string;
        (nl ++ "📦 Exploring products structure...")%string;
        str_mul "=" 60;
        "❌ Error exploring products: Invalid service account certificate"%string;
        (nl ++ "📋 Listing all collections...")%string;
        str_mul "=" 60;
        "❌ Error listing collections: Invalid service account certificate"%string]
       (Some "[]"%string)).
Proof. reflexivity. Qed.

(** * Further properties *)

(** ** A credential file that cannot be loaded *)

(** With a broken credential file a guarded step goes to its handler with
    the error of the certificate, after one attempt and without a query. *)
Lemma broken_step {A} (none : M A) (k : Handle -> M A) (h : exn -> M A)
      (e : exn) (w : World) :
  broken e w ->
  try_except
    (db <- init_firestore ;;
     match db with
     | None => none
     | Some db => k db
     end) h w
  = h e (attempted w).
Proof.
  intros [Ha Hc]. unfold try_except at 1.
  pose proof (init_firestore_invalid w e Ha Hc) as Hi.
  unfold bind at 1. rewrite Hi. unfold attempted. now rewrite Hc, Ha.
Qed.

Section Broken.

Variable svc : Service.
Variable e : exn.

Ltac broken_run H :=
  rewrite !bind_print;
  match goal with
  | |- context [try_except (bind init_firestore ?f) ?h ?w0] =>
      let none := eval cbv beta iota in (f None) in
      rewrite (broken_step none (fun db => f (Some db)) h e w0 H)
  end.

Lemma broken_explore_users_structure w :
  broken e w ->
  explore_users_structure svc w
  = (Ok RNone,
     emit [(nl ++ "👥 Exploring users structure...")%string; str_mul "=" 60;
           ("❌ Error exploring users: " ++ exn_msg e)%string] (attempted w)).
Proof.
  intros H. unfold explore_users_structure. broken_run H.
  unfold attempted, emit. cbn [bind print ret exn_msg cred_file app auth_log calls stdout
                               out_file snd]. now rewrite <- !app_assoc.
Qed.

Lemma broken_find_orders_by_criteria w :
  broken e w ->
  find_orders_by_criteria svc w
  = (Ok RNone,
     emit [(nl ++ "🔍 Searching for orders...")%string; str_mul "=" 60;
           ("❌ Error searching for orders: " ++ exn_msg e)%string] (attempted w)).
Proof.
  intros H. unfold find_orders_by_criteria. broken_run H.
  unfold attempted, emit. cbn [bind print ret exn_msg cred_file app auth_log calls stdout
                               out_file snd]. now rewrite <- !app_assoc.
Qed.

Lemma broken_explore_collection_structure name limit w :
  broken e w ->
  explore_collection_structure svc name limit w
  = (Ok (RList []),
     emit [(nl ++ "🔍 Exploring '" ++ name ++ "' collection...")%string; str_mul "=" 60;
           ("❌ Error exploring collection '" ++ name ++ "': " ++ exn_msg e)%string]
          (attempted w)).
Proof.
  intros H. unfold explore_collection_structure. broken_run H.
  unfold attempted, emit. cbn [bind print ret exn_msg cred_file app auth_log calls stdout
                               out_file snd]. now rewrite <- !app_assoc.
Qed.

Lemma broken_explore_products_structure w :
  broken e w ->
  explore_products_structure svc w
  = (Ok RNone,
     emit [(nl ++ "📦 Exploring products structure...")%string; str_mul "=" 60;
           ("❌ Error exploring products: " ++ exn_msg e)%string] (attempted w)).
Proof.
  intros H. unfold explore_products_structure. broken_run H.
  unfold attempted, emit. cbn [bind print ret exn_msg cred_file app auth_log calls stdout
                               out_file snd]. now rewrite <- !app_assoc.
Qed.

Lemma broken_list_all_collections w :
  broken e w ->
  list_all_collections svc w
  = (Ok tt,
     emit [(nl ++ "📋 Listing all collections...")%string; str_mul "=" 60;
           ("❌ Error listing collections: " ++ exn_msg e)%string] (attempted w)).
Proof.
  intros H. unfold list_all_collections. broken_run H.
  unfold attempted, emit, print. cbn [bind print ret exn_msg cred_file app auth_log calls stdout
                               out_file snd]. now rewrite <- !app_assoc.
Qed.

Lemma broken_emit lines w : broken e w -> broken e (emit lines w).
Proof. intros H. exact H. Qed.

Lemma broken_attempted w : broken e w -> broken e (attempted w).
Proof. intros H. exact H. Qed.

Lemma broken_main w :
  broken e w ->
  exists w',
    main svc w = (Ok tt, w') /\ broken e w' /\ calls w' = calls w /\
    out_file w' = out_file w /\
    auth_log w' = auth_log w ++ [PathChecked; CertificateRead; PathChecked; CertificateRead;
                                 PathChecked; CertificateRead; PathChecked; CertificateRead].
Proof.
  intros H. unfold main. rewrite !bind_print.
  match goal with |- context [bind _ _ ?w0] =>
    rewrite (bind_ok _ _ _ _ _ (broken_explore_users_structure w0 H)) end.
  match goal with |- context [bind _ _ ?w0] =>
    assert (H1 : broken e w0) by exact H;
    rewrite (bind_ok _ _ _ _ _ (broken_find_orders_by_criteria w0 H1)) end.
  change (explore_orders svc RNone) with (@ret unit tt).
  unfold bind at 1, ret at 1.
  match goal with |- context [bind _ _ ?w0] =>
    assert (H2 : broken e w0) by exact H;
    rewrite (bind_ok _ _ _ _ _ (broken_explore_products_structure w0 H2)) end.
  match goal with |- context [list_all_collections svc ?w0] =>
    assert (H3 : broken e w0) by exact H;
    rewrite (broken_list_all_collections w0 H3) end.
  eexists. split; [reflexivity|]. split; [exact H|].
  cbn [calls out_file auth_log emit attempted snd print].
  split; [reflexivity|]. split; [reflexivity|]. now rewrite <- !app_assoc.
Qed.

End Broken.

(** X1.  In a process without an app, when the credential file is there
    but cannot be loaded: init_firestore raises the very error that
    credentials.Certificate raised on it (a ValueError for a file that is no
    certificate, another error for a path that cannot be read); each step
    catches it, prints its own error line with the message, sends no query
    and returns None (explore_collection_structure returns [[]]); main
    completes, leaves the output file alone, and has tried to read the
    certificate once per step, four times in all. *)
Theorem invalid_credentials (svc : Service) (w : World) (e : exn) :
  app w = None ->
  cred_file w = CredInvalid e ->
  init_firestore w = (Raise e, attempted w) /\
  explore_users_structure svc w
  = (Ok RNone,
     emit [(nl ++ "👥 Exploring users structure...")%string; str_mul "=" 60;
           ("❌ Error exploring users: " ++ exn_msg e)%string] (attempted w)) /\
  find_orders_by_criteria svc w
  = (Ok RNone,
     emit [(nl ++ "🔍 Searching for orders...")%string; str_mul "=" 60;
           ("❌ Error searching for orders: " ++ exn_msg e)%string] (attempted w)) /\
  (forall name limit,
     explore_collection_structure svc name limit w
     = (Ok (RList []),
        emit [(nl ++ "🔍 Exploring '" ++ name ++ "' collection...")%string; str_mul "=" 60;
              ("❌ Error exploring collection '" ++ name ++ "': " ++ exn_msg e)%string]
             (attempted w))) /\
  explore_products_structure svc w
  = (Ok RNone,
     emit [(nl ++ "📦 Exploring products structure...")%string; str_mul "=" 60;
           ("❌ Error exploring products: " ++ exn_msg e)%string] (attempted w)) /\
  exists w',
    main svc w = (Ok tt, w') /\ app w' = None /\ calls w' = calls w /\
    out_file w' = out_file w /\
    auth_log w' = auth_log w ++ [PathChecked; CertificateRead; PathChecked; CertificateRead;
                                 PathChecked; CertificateRead; PathChecked; CertificateRead].
Proof.
  intros Ha Hc. assert (H : broken e w) by (split; assumption).
  split; [|split; [|split; [|split; [|split]]]].
  - rewrite (init_firestore_invalid w e Ha Hc). unfold attempted. now rewrite Ha, Hc.
  - now apply broken_explore_users_structure.
  - now apply broken_find_orders_by_criteria.
  - intros name limit. now apply broken_explore_collection_structure.
  - now apply broken_explore_products_structure.
  - destruct (broken_main svc e w H) as (w' & E & [Ha' _] & K & F & L).
    exists w'. auto.
Qed.

Lemma invalid_credentials_witness :
  app (fresh (CredInvalid (Exception "Is a directory")) (Some "[]")) = None /\
  cred_file (fresh (CredInvalid (Exception "Is a directory")) (Some "[]"))
  = CredInvalid (Exception "Is a directory") /\
  init_firestore (fresh (CredInvalid (Exception "Is a directory")) (Some "[]"))
  = (Raise (Exception "Is a directory"),
     attempted (fresh (CredInvalid (Exception "Is a directory")) (Some "[]"))) /\
  exists w',
    main svc_wide (fresh (CredInvalid (Exception "Is a directory")) (Some "[]")) = (Ok tt, w') /\
    calls w' = [] /\ out_file w' = Some "[]"%string /\
    auth_log w' = [PathChecked; CertificateRead; PathChecked; CertificateRead;
                   PathChecked; CertificateRead; PathChecked; CertificateRead].
Proof.
  split; [reflexivity|]. split; [reflexivity|].
  destruct (invalid_credentials svc_wide
              (fresh (CredInvalid (Exception "Is a directory")) (Some "[]"))
              (Exception "Is a directory") eq_refl eq_refl)
    as (Hi & _ & _ & _ & _ & w' & E & _ & K & F & L).
  split; [exact Hi|]. exists w'. auto.
Defined.

(** ** What the discovery can return *)

Lemma candidate_truthy (c : string) : In c collections_to_try -> truthy (RStr c) = true.
Proof.
  unfold collections_to_try. simpl.
  intros [<-|[<-|[<-|[<-|[<-|[]]]]]]; reflexivity.
Qed.

(** every world is connected, offline or broken *)
Lemma connection_cases (w : World) :
  available w = true \/ offline w \/ exists why, broken why w.
Proof.
  unfold available, offline, broken.
  destruct (app w); [now left|]. destruct (cred_file w) as [|why|]; eauto.
Qed.

(** X2.  Whatever the service and the world, find_orders_by_criteria
    returns without raising, and what it returns is [[]], None or one of
    the five candidate names; it is [[]] only when no app exists and the
    credential file is missing, and it is truthy exactly when it is a
    candidate name. *)
Theorem find_orders_result (svc : Service) (w : World) :
  exists r w',
    find_orders_by_criteria svc w = (Ok r, w') /\
    (r = RList [] \/ r = RNone \/ exists c, In c collections_to_try /\ r = RStr c) /\
    (r = RList [] -> app w = None /\ cred_file w = CredMissing) /\
    (truthy r = true <-> exists c, In c collections_to_try /\ r = RStr c).
Proof.
  assert (T : forall r, (r = RList [] \/ r = RNone \/
                         exists c, In c collections_to_try /\ r = RStr c) ->
                        (truthy r = true <-> exists c, In c collections_to_try /\ r = RStr c)).
  { intros r [->|[->|(c & Hin & ->)]]; split; try discriminate.
    - intros (c & _ & [=]).
    - intros (c & _ & [=]).
    - intros _. now exists c.
    - intros _. now apply candidate_truthy. }
  destruct (connection_cases w) as [Hav|[Hoff|(why & Hb)]].
  - destruct (find_orders_connected svc w Hav) as (db & w0 & _ & _ & _ & _ & E).
    destruct (no_raise_try_collections svc db collections_to_try w0) as (r & w' & E').
    exists r, w'. rewrite E.
    assert (R : r = RList [] \/ r = RNone \/ exists c, In c collections_to_try /\ r = RStr c).
    { destruct (try_collections_result svc db _ w0 r w' E') as [->|H]; auto. }
    split; [exact E'|]. split; [exact R|]. split; [|now apply T].
    intros ->. destruct (try_collections_result svc db _ w0 _ w' E') as [[=]|(c & _ & [=])].
  - destruct (offline_find_orders_by_criteria svc w Hoff) as (w' & E & _).
    exists (RList []), w'. split; [exact E|]. split; [now left|].
    split; [intros _; exact Hoff | apply T; now left].
  - exists RNone. eexists. split; [exact (broken_find_orders_by_criteria svc why w Hb)|].
    split; [right; now left|]. split; [discriminate | apply T; right; now left].
Qed.

(** ** What a run does to the output file *)

(** X3.  Whatever the service and the world, main completes, and the
    output file afterwards is either what it was before or the dump of the
    names that the listing call, the last call of the run, answered. *)
Theorem main_file_safety (svc : Service) (w : World) :
  exists w',
    main svc w = (Ok tt, w') /\
    (out_file w' = out_file w \/
     exists names,
       last (calls w') (Get "" 0) = Collections /\
       list_collections svc (before_last (calls w')) = Ok names /\
       out_file w' = Some (json_dump names)).
Proof.
  destruct (connection_cases w) as [Hav|[Hoff|(why & Hb)]].
  - destruct (main_connected svc w Hav) as (mid & w' & E & K & H).
    exists w'. split; [exact E|].
    unfold before_last. rewrite K, removelast_last, last_last.
    destruct (list_collections svc _) as [names|e]; [right | now left].
    exists names. auto.
  - destruct (offline_main svc w Hoff) as (w' & E & _ & F). exists w'. auto.
  - destruct (broken_main svc why w Hb) as (w' & E & _ & _ & F & _). exists w'. auto.
Qed.

(** ** One authentication per process *)

Lemma same_session_refl w : same_session w w.
Proof. intros s H. auto. Qed.

Lemma same_session_trans w1 w2 w3 :
  same_session w1 w2 -> same_session w2 w3 -> same_session w1 w3.
Proof.
  intros H12 H23 s H. destruct (H12 s H) as (A2 & L2).
  destruct (H23 s A2) as (A3 & L3). split; congruence.
Qed.

Lemma keeps_session_ret {A} (a : A) : keeps_session (ret a).
Proof. intros w r w' [= <- <-]. apply same_session_refl. Qed.

Lemma keeps_session_bind {A B} (m : M A) (k : A -> M B) :
  keeps_session m -> (forall a, keeps_session (k a)) -> keeps_session (bind m k).
Proof.
  intros Hm Hk w r w'. unfold bind. destruct (m w) as [[a|e] w1] eqn:E.
  - intros H. eapply same_session_trans; [eapply Hm; eauto | eapply Hk; eauto].
  - intros [= <- <-]. eapply Hm; eauto.
Qed.

Lemma keeps_session_try_except {A} (m : M A) h :
  keeps_session m -> (forall e, keeps_session (h e)) -> keeps_session (try_except m h).
Proof.
  intros Hm Hh w r w'. unfold try_except. destruct (m w) as [[a|e] w1] eqn:E.
  - intros [= <- <-]. eapply Hm; eauto.
  - intros H. eapply same_session_trans; [eapply Hm; eauto | eapply Hh; eauto].
Qed.

Lemma keeps_session_print line : keeps_session (print line).
Proof. intros w r w' [= <- <-] s H. auto. Qed.

Lemma keeps_session_write_file content : keeps_session (write_file content).
Proof. intros w r w' [= <- <-] s H. auto. Qed.

Lemma keeps_session_for_each {A} (l : list A) body :
  (forall x, keeps_session (body x)) -> keeps_session (for_each l body).
Proof.
  intros Hb. induction l as [|x l IH]; simpl.
  - apply keeps_session_ret.
  - apply keeps_session_bind; auto.
Qed.

(** With an app in place init_firestore changes nothing. *)
Lemma keeps_session_init_firestore : keeps_session init_firestore.
Proof.
  intros w r w' H s Happ. rewrite (init_firestore_reuse w s Happ) in H.
  injection H as <- <-. auto.
Qed.

Lemma keeps_session_collection_get svc db name limit :
  keeps_session (collection_get svc db name limit).
Proof. intros w r w' [= <- <-] s H. auto. Qed.

Lemma keeps_session_collection_ids svc db : keeps_session (collection_ids svc db).
Proof. intros w r w' [= <- <-] s H. auto. Qed.

Create HintDb session.

#[local] Hint Resolve keeps_session_ret keeps_session_print keeps_session_write_file
  keeps_session_init_firestore keeps_session_collection_get keeps_session_collection_ids
  : session.

Ltac session_step :=
  match goal with
  | |- keeps_session (bind _ _) => apply keeps_session_bind; [|intros ?]
  | |- keeps_session (try_except _ _) => apply keeps_session_try_except; [|intros ?]
  | |- keeps_session (for_each _ _) => apply keeps_session_for_each; intros ?
  | |- keeps_session (match ?x with _ => _ end) => destruct x
  | |- keeps_session _ => solve [auto with session]
  end.

Ltac sessions_kept := repeat session_step.

Section Session.

Variable svc : Service.

Lemma keeps_session_explore_docs docs samples : keeps_session (explore_docs docs samples).
Proof.
  revert samples. induction docs as [|[i doc] rest IH]; intros samples; simpl; sessions_kept.
Qed.

Lemma keeps_session_show_first_order name docs : keeps_session (show_first_order name docs).
Proof. unfold show_first_order. sessions_kept. Qed.

Lemma keeps_session_print_fields fields shown d : keeps_session (print_fields fields shown d).
Proof. unfold print_fields. sessions_kept. Qed.

Hint Resolve keeps_session_explore_docs keeps_session_show_first_order
  keeps_session_print_fields : session.

Lemma keeps_session_try_collections db names : keeps_session (try_collections svc db names).
Proof. induction names as [|name rest IH]; simpl; sessions_kept. Qed.

Hint Resolve keeps_session_try_collections : session.

Lemma keeps_session_explore_collection_structure name limit :
  keeps_session (explore_collection_structure svc name limit).
Proof. unfold explore_collection_structure. sessions_kept. Qed.

Lemma keeps_session_find_orders_by_criteria : keeps_session (find_orders_by_criteria svc).
Proof. unfold find_orders_by_criteria. sessions_kept. Qed.

Lemma keeps_session_explore_users_structure : keeps_session (explore_users_structure svc).
Proof. unfold explore_users_structure. sessions_kept. Qed.

Lemma keeps_session_explore_products_structure : keeps_session (explore_products_structure svc).
Proof. unfold explore_products_structure. sessions_kept. Qed.

Lemma keeps_session_list_all_collections : keeps_session (list_all_collections svc).
Proof. unfold list_all_collections. sessions_kept. Qed.

Hint Resolve keeps_session_explore_collection_structure keeps_session_find_orders_by_criteria
  keeps_session_explore_users_structure keeps_session_explore_products_structure
  keeps_session_list_all_collections : session.

Lemma keeps_session_explore_orders r : keeps_session (explore_orders svc r).
Proof. unfold explore_orders. sessions_kept. Qed.

Hint Resolve keeps_session_explore_orders : session.

Lemma keeps_session_main : keeps_session (main svc).
Proof. unfold main. sessions_kept. Qed.

(** A first connection with a loadable certificate: the guarded step goes
    on with the client of the new app. *)
Lemma first_connection_step {A} (none : M A) (k : Handle -> M A) (h : exn -> M A)
      (w : World) :
  app w = None -> cred_file w = CredValid ->
  try_except
    (db <- init_firestore ;;
     match db with
     | None => none
     | Some db => k db
     end) h w
  = try_except (k (Client (sessions (auth_log w)))) h (signed_in w).
Proof.
  intros Ha Hc. unfold try_except.
  rewrite (bind_ok _ _ _ _ _ (init_firestore_fresh w Ha Hc)).
  unfold signed_in. now rewrite Hc.
Qed.

(** The first step of a run signs in. *)
Lemma explore_users_signs_in w r w' :
  app w = None -> cred_file w = CredValid ->
  explore_users_structure svc w = (r, w') ->
  app w' = Some (sessions (auth_log w)) /\
  auth_log w' = auth_log w ++ [PathChecked; CertificateRead;
                               AppInitialized (sessions (auth_log w))].
Proof.
  intros Ha Hc. unfold explore_users_structure. rewrite !bind_print.
  match goal with
  | |- context [try_except (bind init_firestore ?f) ?h ?w0] =>
      let none := eval cbv beta iota in (f None) in
      rewrite (first_connection_step none (fun db => f (Some db)) h w0 Ha Hc)
  end.
  intros E.
  match type of E with
  | try_except ?m ?h ?w1 = _ =>
      assert (K : keeps_session (try_except m h)) by sessions_kept;
      exact (K w1 r w' E _ eq_refl)
  end.
Qed.

End Session.

#[local] Hint Resolve keeps_session_find_orders_by_criteria keeps_session_explore_orders
  keeps_session_explore_products_structure keeps_session_list_all_collections : session.

(** X4.  A run that can connect authenticates at most once, whatever the
    service does: when no app exists at the start, the path is checked, the
    certificate read and one app created, once, by the first step, and
    every later call of init_firestore reuses that app; when an app exists
    already, the run logs no authentication at all. *)
Theorem main_authenticates_once (svc : Service) (w : World) :
  available w = true ->
  exists w',
    main svc w = (Ok tt, w') /\
    match app w with
    | Some session => app w' = Some session /\ auth_log w' = auth_log w
    | None =>
        app w' = Some (sessions (auth_log w)) /\
        auth_log w' = auth_log w ++ [PathChecked; CertificateRead;
                                     AppInitialized (sessions (auth_log w))]
    end.
Proof.
  intros Hav. destruct (no_raise_main svc w) as ([] & w' & E).
  exists w'. split; [exact E|].
  destruct (app w) as [s|] eqn:Ha.
  - exact (keeps_session_main svc w _ w' E s Ha).
  - assert (Hc : cred_file w = CredValid).
    { unfold available in Hav. rewrite Ha in Hav. now destruct (cred_file w). }
    unfold main in E. rewrite !bind_print in E.
    match type of E with context [bind _ _ ?w0] =>
      destruct (no_raise_explore_users_structure svc w0) as (r1 & w1 & E1);
      destruct (explore_users_signs_in svc w0 _ w1 Ha Hc E1) as (A1 & L1) end.
    rewrite (bind_ok _ _ _ _ _ E1) in E.
    cbn [auth_log snd print] in A1, L1.
    match type of E with ?m w1 = _ =>
      assert (K : keeps_session m) by sessions_kept;
      destruct (K w1 _ w' E _ A1) as (A' & L') end.
    split; congruence.
Qed.

Lemma main_authenticates_once_witness :
  available (fresh CredValid None) = true /\
  exists w',
    main svc_down (fresh CredValid None) = (Ok tt, w') /\
    app w' = Some 0%nat /\
    auth_log w' = [PathChecked; CertificateRead; AppInitialized 0].
Proof.
  split; [reflexivity|].
  destruct (main_authenticates_once svc_down (fresh CredValid None) eq_refl) as (w' & E & H).
  exists w'. split; [exact E | exact H].
Defined.

(** ** The queries of a whole run *)

Lemma main_found_run (svc : Service) (w : World)
        (pre : list string) (name : string) (post : list string) :
  available w = true ->
  collections_to_try = pre ++ name :: post ->
  all_miss svc (calls w ++ [Get "users" 3]) pre = true ->
  has_document
    (query_get svc ((calls w ++ [Get "users" 3]) ++ map probe pre) name 3) = true ->
  exists w',
    main svc w = (Ok tt, w') /\
    calls w' = calls w ++ [Get "users" 3] ++ map probe (pre ++ [name])
                       ++ [Get name 3; Get "products" 5; Collections].
Proof.
  intros Hav Hsplit Hmiss Hhit. unfold main. rewrite !bind_print.
  match goal with |- context [bind _ _ ?w0] =>
    destruct (explore_users_connected svc w0 Hav) as (w1 & E1 & K1 & _ & Av1 & _) end.
  cbn [calls snd print] in K1. rewrite (bind_ok _ _ _ _ _ E1).
  rewrite <- K1 in Hmiss, Hhit.
  destruct (find_orders_hit svc w1 pre name post Av1 Hsplit Hmiss Hhit) as (w2 & E2 & K2 & _).
  pose proof (frame_find_orders_by_criteria svc w1 _ _ E2) as (_ & _ & _ & _ & _ & Av2).
  rewrite (bind_ok _ _ _ _ _ E2).
  assert (Hin : In name collections_to_try).
  { rewrite Hsplit. apply in_or_app. right. now left. }
  unfold explore_orders. rewrite (candidate_truthy name Hin).
  destruct (explore_collection_connected svc name 3 w2 (Av2 Av1))
    as (r3 & w3 & E3 & K3 & _ & Av3 & _).
  rewrite bind_assoc, (bind_ok _ _ _ _ _ E3). unfold bind at 1, ret at 1.
  destruct (explore_products_connected svc w3 Av3) as (w4 & E4 & K4 & _ & Av4 & _).
  rewrite (bind_ok _ _ _ _ _ E4).
  destruct (list_all_collections_connected svc w4 Av4) as (w5 & E5 & K5 & _).
  exists w5. split; [exact E5|].
  rewrite K5, K4, K3, K2, K1, <- !app_assoc. reflexivity.
Qed.

(** X5.  Connected, when the discovery accepts a candidate, the queries of
    the whole run are, in this order: users with limit 3, the candidates up
    to the accepted one with limit 3 each, the accepted collection once
    more with limit 3 (its exploration), products with limit 5, and the
    listing of the collections; nothing else is asked, and no candidate
    after the accepted one is queried. *)
Theorem main_calls_found (svc : Service) (w : World)
        (pre : list string) (name : string) (post : list string) :
  available w = true ->
  collections_to_try = pre ++ name :: post ->
  all_miss svc (calls w ++ [Get "users" 3]) pre = true ->
  has_document
    (query_get svc ((calls w ++ [Get "users" 3]) ++ map probe pre) name 3) = true ->
  exists w',
    main svc w = (Ok tt, w') /\
    calls w' = calls w ++ [Get "users" 3] ++ map probe (pre ++ [name])
                       ++ [Get name 3; Get "products" 5; Collections] /\
    List.length (calls w') = (List.length (calls w) + List.length pre + 5)%nat /\
    (forall later limit,
        In later post -> In (Get later limit) (calls w') -> In (Get later limit) (calls w)).
Proof.
  intros Hav Hsplit Hmiss Hhit.
  destruct (main_found_run svc w pre name post Hav Hsplit Hmiss Hhit) as (w' & E & K).
  exists w'. split; [exact E|]. split; [exact K|]. split.
  - rewrite K, !length_app, length_map, length_app. cbn [List.length]. lia.
  - intros later limit Hin Hlog. rewrite K in Hlog.
    pose proof collections_to_try_NoDup as Hnd. rewrite Hsplit in Hnd.
    pose proof (NoDup_split_later pre post name later Hnd Hin) as Hno.
    assert (Hcand : In later collections_to_try).
    { rewrite Hsplit. apply in_or_app. right. now right. }
    assert (Hother : later <> "users"%string /\ later <> "products"%string).
    { split; intros ->; simpl in Hcand; intuition discriminate. }
    apply in_app_or in Hlog as [H|H]; [exact H|]. exfalso.
    apply in_app_or in H as [[H|[]]|H]; [injection H as <- _; now apply (proj1 Hother)|].
    apply in_app_or in H as [H|[H|[H|[H|[]]]]].
    + apply in_probe in H. contradiction.
    + injection H as <- _. apply Hno. apply in_or_app. right. now left.
    + injection H as <- _. now apply (proj2 Hother).
    + discriminate.
Qed.

Lemma main_calls_found_witness :
  available (fresh CredValid None) = true /\
  collections_to_try = ["orders"; "Orders"] ++ "order" :: ["purchase_orders"; "transactions"] /\
  all_miss svc_order_third (calls (fresh CredValid None) ++ [Get "users" 3])
           ["orders"; "Orders"] = true /\
  has_document
    (query_get svc_order_third
       ((calls (fresh CredValid None) ++ [Get "users" 3]) ++ map probe ["orders"; "Orders"])
       "order" 3) = true /\
  exists w',
    main svc_order_third (fresh CredValid None) = (Ok tt, w') /\
    calls w' = [Get "users" 3; Get "orders" 3; Get "Orders" 3; Get "order" 3; Get "order" 3;
                Get "products" 5; Collections].
Proof.
  repeat (split; [reflexivity|]).
  destruct (main_calls_found svc_order_third (fresh CredValid None)
              ["orders"; "Orders"] "order" ["purchase_orders"; "transactions"]
              eq_refl eq_refl eq_refl eq_refl) as (w' & E & K & _).
  exists w'. split; [exact E | exact K].
Defined.

Lemma main_not_found_run (svc : Service) (w : World) :
  available w = true ->
  all_miss svc (calls w ++ [Get "users" 3]) collections_to_try = true ->
  exists w',
    main svc w = (Ok tt, w') /\
    calls w' = calls w ++ [Get "users" 3; Get "orders" 3; Get "Orders" 3; Get "order" 3;
                           Get "purchase_orders" 3; Get "transactions" 3;
                           Get "products" 5; Collections].
Proof.
  intros Hav Hmiss. unfold main. rewrite !bind_print.
  match goal with |- context [bind _ _ ?w0] =>
    destruct (explore_users_connected svc w0 Hav) as (w1 & E1 & K1 & _ & Av1 & _) end.
  cbn [calls snd print] in K1. rewrite (bind_ok _ _ _ _ _ E1).
  rewrite <- K1 in Hmiss.
  destruct (find_orders_miss svc w1 Av1 Hmiss) as (w2 & E2 & K2 & _).
  pose proof (frame_find_orders_by_criteria svc w1 _ _ E2) as (_ & _ & _ & _ & _ & Av2).
  rewrite (bind_ok _ _ _ _ _ E2).
  change (explore_orders svc RNone) with (@ret unit tt). unfold bind at 1, ret at 1.
  destruct (explore_products_connected svc w2 (Av2 Av1)) as (w4 & E4 & K4 & _ & Av4 & _).
  rewrite (bind_ok _ _ _ _ _ E4).
  destruct (list_all_collections_connected svc w4 Av4) as (w5 & E5 & K5 & _).
  exists w5. split; [exact E5|].
  rewrite K5, K4, K2, K1, <- !app_assoc. reflexivity.
Qed.

(** X6.  Connected, when no candidate yields a document, nothing is
    explored between the discovery and the products: the queries of the
    whole run are users, the five candidates in order, products and the
    listing, eight calls in all; the file then holds the names the listing
    answered, or is left alone when the listing raised. *)
Theorem main_calls_not_found (svc : Service) (w : World) :
  available w = true ->
  all_miss svc (calls w ++ [Get "users" 3]) collections_to_try = true ->
  exists w',
    main svc w = (Ok tt, w') /\
    calls w' = calls w ++ [Get "users" 3; Get "orders" 3; Get "Orders" 3; Get "order" 3;
                           Get "purchase_orders" 3; Get "transactions" 3;
                           Get "products" 5; Collections] /\
    List.length (calls w') = (List.length (calls w) + 8)%nat /\
    out_file w' = match list_collections svc (before_last (calls w')) with
                  | Ok names => Some (json_dump names)
                  | Raise _ => out_file w
                  end.
Proof.
  intros Hav Hmiss.
  destruct (main_not_found_run svc w Hav Hmiss) as (w' & E & K).
  exists w'. split; [exact E|]. split; [exact K|]. split.
  - rewrite K, length_app. reflexivity.
  - destruct (main_connected svc w Hav) as (mid & w'' & E' & K' & H).
    rewrite E in E'. injection E' as <-.
    unfold before_last. rewrite K', removelast_last.
    destruct (list_collections svc _); exact H.
Qed.

Lemma main_calls_not_found_witness :
  available (fresh CredValid None) = true /\
  all_miss svc_down (calls (fresh CredValid None) ++ [Get "users" 3]) collections_to_try = true /\
  exists w',
    main svc_down (fresh CredValid None) = (Ok tt, w') /\
    calls w' = [Get "users" 3; Get "orders" 3; Get "Orders" 3; Get "order" 3;
                Get "purchase_orders" 3; Get "transactions" 3; Get "products" 5; Collections].
Proof.
  repeat (split; [reflexivity|]).
  destruct (main_calls_not_found svc_down (fresh CredValid None) eq_refl eq_refl)
    as (w' & E & K & _).
  exists w'. split; [exact E | exact K].
Defined.

(** ** What the discovery shows of the collection it accepts *)

Lemma print_emit_last line w : print line w = (Ok tt, emit [line] w).
Proof. reflexivity. Qed.

Lemma show_first_order_emit name doc more w :
  show_first_order name (doc :: more) w = (Ok tt, emit (order_lines name doc) w).
Proof.
  unfold show_first_order, order_lines. rewrite !bind_print_emit, emit_emit.
  destruct (found_fields order_fields (data doc)) as [|f fs].
  - unfold ret. now rewrite app_nil_r.
  - rewrite print_emit_last, emit_emit. reflexivity.
Qed.

Lemma try_collections_accepts svc db name rest doc more w :
  query_get svc (calls w) name 3 = Ok (doc :: more) ->
  try_collections svc db (name :: rest) w
  = (Ok (RStr name), emit (order_lines name doc) (asked (probe name) w)).
Proof.
  intros Hq. cbn [try_collections]. unfold bind at 1. unfold try_except, bind at 1, collection_get.
  rewrite Hq. fold (asked (probe name) w).
  rewrite (bind_ok _ _ _ _ _ (show_first_order_emit name doc more _)).
  reflexivity.
Qed.

(** X7.  Connected, when a candidate is accepted the discovery prints,
    after its two header lines, the name of the collection, the id of the
    first document fetched and, when that document holds any of the ten
    order fields, one line with at most three of them, in the order of the
    list; the other documents fetched are not shown, and nothing is printed
    for the candidates tried before. *)
Theorem find_orders_shows_first (svc : Service) (w : World)
        (pre : list string) (name : string) (post : list string)
        (doc : Document) (more : list Document) :
  available w = true ->
  collections_to_try = pre ++ name :: post ->
  all_miss svc (calls w) pre = true ->
  query_get svc (calls w ++ map probe pre) name 3 = Ok (doc :: more) ->
  exists w',
    find_orders_by_criteria svc w = (Ok (RStr name), w') /\
    stdout w'
    = stdout w
      ++ [(nl ++ "🔍 Searching for orders...")%string; str_mul "=" 60;
          ("✅ Found orders in collection: '" ++ name ++ "'")%string;
          ("  Order ID: " ++ id doc)%string]
      ++ match found_fields order_fields (data doc) with
         | [] => []
         | _ :: _ =>
             [("    Key fields: "
                 ++ String.concat ", " (firstn 3 (found_fields order_fields (data doc))))%string]
         end /\
    (List.length (firstn 3 (found_fields order_fields (data doc))) <= 3)%nat /\
    (forall entry, In entry (found_fields order_fields (data doc)) ->
       exists field value,
         In field order_fields /\ dict_get field (data doc) = Some value /\
         entry = (field ++ ": " ++ py_str value)%string).
Proof.
  intros Hav Hsplit Hmiss Hq.
  destruct (find_orders_connected svc w Hav) as (db & w0 & Hc & _ & _ & Hs & E).
  rewrite E, Hsplit. rewrite <- Hc in Hmiss, Hq.
  rewrite (try_collections_skip svc db pre (name :: post) w0 Hmiss).
  match goal with |- context [try_collections svc db (name :: post) ?w2] =>
    rewrite (try_collections_accepts svc db name post doc more w2 Hq) end.
  eexists. split; [reflexivity|]. split; [|split].
  - cbn [stdout emit asked]. rewrite Hs. unfold order_lines.
    rewrite <- !app_assoc. reflexivity.
  - apply firstn_le_length.
  - intros entry Hin. unfold found_fields in Hin.
    apply in_flat_map in Hin as (field & Hf & Hl).
    destruct (dict_get field (data doc)) as [value|] eqn:Hg; [|contradiction].
    destruct Hl as [<-|[]]. now exists field, value.
Qed.

Lemma find_orders_shows_first_witness :
  available (fresh CredValid None) = true /\
  collections_to_try = ["orders"; "Orders"] ++ "order" :: ["purchase_orders"; "transactions"] /\
  all_miss svc_order_third (calls (fresh CredValid None)) ["orders"; "Orders"] = true /\
  query_get svc_order_third (calls (fresh CredValid None) ++ map probe ["orders"; "Orders"])
            "order" 3 = Ok [sample_order] /\
  exists w',
    find_orders_by_criteria svc_order_third (fresh CredValid None) = (Ok (RStr "order"), w') /\
    stdout w' = [(nl ++ "🔍 Searching for orders...")%string; str_mul "=" 60;
                 "✅ Found orders in collection: 'order'"%string;
                 "  Order ID: o-17"%string;
                 "    Key fields: status: open, total: 12, items: [1, 2, 3, 4]"%string].
Proof.
  repeat (split; [reflexivity|]).
  destruct (find_orders_shows_first svc_order_third (fresh CredValid None)
              ["orders"; "Orders"] "order" ["purchase_orders"; "transactions"]
              sample_order [] eq_refl eq_refl eq_refl eq_refl) as (w' & E & S & _).
  exists w'. split; [exact E | exact S].
Defined.

(** ** What the users step prints *)

Lemma whitelisted_lines_complete fields shown d field value :
  In field fields -> dict_get field d = Some value ->
  In ("  " ++ field ++ ": " ++ py_str (shown value))%string (whitelisted_lines fields shown d).
Proof.
  intros Hin Hg. unfold whitelisted_lines. apply in_flat_map.
  exists field. split; [exact Hin|]. rewrite Hg. now left.
Qed.

Lemma users_loop_emit (users : list Document) w :
  for_each users
    (fun user : Document =>
       print (nl ++ "👤 User ID: " ++ id user)%string ;;
       print_fields user_fields (fun value => value) (data user)) w
  = (Ok tt, emit (flat_map user_lines users) w).
Proof.
  revert w. induction users as [|user users IH]; intros w; cbn [for_each flat_map].
  - unfold ret. now rewrite emit_nil.
  - rewrite bind_assoc, bind_print_emit.
    rewrite (bind_ok _ _ _ _ _ (print_fields_emit _ _ _ _)).
    rewrite IH, !emit_emit. unfold user_lines at 2. rewrite <- ?app_assoc. reflexivity.
Qed.

(** X8.  Connected and answered, explore_users_structure returns None and
    prints, after its two header lines, for each user fetched the id and
    then one line for each of the fields email, name, role, type,
    companyName, created and createdAt that the user holds, in this order.
    No other field is shown (the output is the same when all others are
    removed), and a text is shown in full whatever its length. *)
Theorem explore_users_output (svc : Service) (w : World) (users : list Document) :
  available w = true ->
  query_get svc (calls w) "users" 3 = Ok users ->
  exists w',
    explore_users_structure svc w = (Ok RNone, w') /\
    calls w' = calls w ++ [Get "users" 3] /\
    stdout w' = stdout w ++ [(nl ++ "👥 Exploring users structure...")%string; str_mul "=" 60]
                         ++ flat_map user_lines users /\
    (forall user,
       user_lines user
       = user_lines
           (mkDocument (id user)
              (filter (fun kv => existsb (String.eqb (fst kv))
                                   ["email"; "name"; "role"; "type"; "companyName";
                                    "created"; "createdAt"])
                      (data user)))) /\
    (forall user field s,
       In field ["email"; "name"; "role"; "type"; "companyName"; "created"; "createdAt"] ->
       dict_get field (data user) = Some (VStr s) ->
       In ("  " ++ field ++ ": " ++ s)%string (user_lines user)).
Proof.
  intros Hav Hq. unfold explore_users_structure. run_connected svc Hav.
  rewrite Hq. unfold try_except.
  rewrite (bind_ok _ _ _ _ _ (users_loop_emit users w1)). unfold ret.
  eexists. split; [reflexivity|]. cbn [calls stdout emit].
  split; [exact K|]. split; [rewrite S, <- ?app_assoc; reflexivity|]. split.
  - intros user. unfold user_lines. cbn [id data].
    now rewrite (whitelisted_lines_filter user_fields).
  - intros user field s Hin Hg. unfold user_lines. right.
    exact (whitelisted_lines_complete user_fields (fun value => value) _ field (VStr s) Hin Hg).
Qed.

Lemma explore_users_output_witness :
  available (fresh CredValid None) = true /\
  query_get svc_wide (calls (fresh CredValid None)) "users" 3 = Ok [sample_wide] /\
  exists w',
    explore_users_structure svc_wide (fresh CredValid None) = (Ok RNone, w') /\
    stdout w' = [(nl ++ "👥 Exploring users structure...")%string; str_mul "=" 60;
                 (nl ++ "👤 User ID: w-1")%string;
                 "  name: widget"%string].
Proof.
  split; [reflexivity|]. split; [reflexivity|].
  destruct (explore_users_output svc_wide (fresh CredValid None) [sample_wide] eq_refl eq_refl)
    as (w' & E & _ & S & _).
  exists w'. split; [exact E | exact S].
Defined.

(** ** What explore_collection_structure returns *)

Lemma nth_error_enumerate {A} (l : list A) (start i : nat) (x : A) :
  nth_error l i = Some x -> In ((start + i)%nat, x) (enumerate l start).
Proof.
  revert start i. induction l as [|y l IH]; intros start i H.
  - now destruct i.
  - destruct i as [|i]; simpl in *.
    + injection H as ->. left. now rewrite Nat.add_0_r.
    + right. replace (start + S i)%nat with (S start + i)%nat by lia. now apply IH.
Qed.

Lemma doc_header_in_doc_lines i doc : In (doc_header i doc) (doc_lines (i, doc)).
Proof. now left. Qed.

(** X9.  Connected and answered, explore_collection_structure sends one
    query with the limit it was given and returns the documents fetched
    that hold at least one field, in the order fetched; it announces the
    number of all documents fetched, prints a header for each, numbered
    from 1, and for a document without a field the line "(No data)"
    instead of field lines. *)
Theorem explore_collection_samples (svc : Service) (w : World) (name : string) (limit : nat)
        (docs : list Document) :
  available w = true ->
  query_get svc (calls w) name limit = Ok docs ->
  exists w',
    explore_collection_structure svc name limit w = (Ok (RList (filter has_data docs)), w') /\
    calls w' = calls w ++ [Get name limit] /\
    In ("Found " ++ str_nat (List.length docs) ++ " documents in '" ++ name ++ "'")%string
       (stdout w') /\
    (forall i doc, nth_error docs i = Some doc ->
       In (nl ++ "📄 Document " ++ str_nat (S i) ++ " (ID: " ++ id doc ++ "):")%string
          (stdout w') /\
       (data doc = [] ->
        ~ In doc (filter has_data docs) /\
        exists before after,
          stdout w' = before ++ [doc_header (S i) doc; "  (No data)"%string] ++ after)) /\
    (forall doc, In doc docs -> data doc <> [] -> In doc (filter has_data docs)).
Proof.
  intros Hav Hq.
  destruct (explore_collection_output svc name limit docs w Hav Hq) as (w' & E & Hout).
  destruct (explore_collection_connected svc name limit w Hav) as (r & w'' & E' & K & _).
  rewrite E in E'. injection E' as _ <-.
  exists w'. split; [exact E|]. split; [exact K|]. split; [|split].
  - rewrite Hout. apply in_or_app. right. right. right. now left.
  - intros i doc Hn.
    pose proof (nth_error_enumerate docs 1 i doc Hn) as Hin. cbn [Nat.add] in Hin.
    split.
    + rewrite Hout. apply in_or_app. right. apply in_or_app. right.
      apply in_flat_map. exists (S i, doc). split; [exact Hin | now left].
    + intros Hd. split.
      * intros Hf. apply filter_In in Hf as [_ Hf]. unfold has_data in Hf.
        rewrite Hd in Hf. discriminate.
      * apply in_split in Hin as (l1 & l2 & Hl).
        exists (stdout w
                ++ [(nl ++ "🔍 Exploring '" ++ name ++ "' collection...")%string;
                    str_mul "=" 60;
                    ("Found " ++ str_nat (List.length docs) ++ " documents in '"
                              ++ name ++ "'")%string]
                ++ flat_map doc_lines l1), (flat_map doc_lines l2).
        rewrite Hout, Hl, flat_map_app. cbn [flat_map].
        unfold doc_lines at 2. cbn [fst snd]. rewrite Hd.
        unfold doc_header. rewrite <- !app_assoc. reflexivity.
  - intros doc Hin Hd. apply filter_In. split; [exact Hin|].
    unfold has_data. destruct (data doc); [contradiction | reflexivity].
Qed.

Lemma explore_collection_samples_witness :
  available (fresh CredValid None) = true /\
  query_get svc_mixed (calls (fresh CredValid None)) "orders" 5
  = Ok [sample_order; sample_bare; sample_order] /\
  nth_error [sample_order; sample_bare; sample_order] 1 = Some sample_bare /\
  data sample_bare = [] /\
  exists w',
    explore_collection_structure svc_mixed "orders" 5 (fresh CredValid None)
    = (Ok (RList [sample_order; sample_order]), w') /\
    calls w' = [Get "orders" 5] /\
    In "Found 3 documents in 'orders'"%string (stdout w') /\
    In (nl ++ "📄 Document 1 (ID: o-17):")%string (stdout w') /\
    In (nl ++ "📄 Document 3 (ID: o-17):")%string (stdout w') /\
    ~ In sample_bare [sample_order; sample_order] /\
    exists before after,
      stdout w' = before ++ [(nl ++ "📄 Document 2 (ID: b-0):")%string;
                             "  (No data)"%string] ++ after.
Proof.
  split; [reflexivity|]. split; [reflexivity|]. split; [reflexivity|]. split; [reflexivity|].
  destruct (explore_collection_samples svc_mixed (fresh CredValid None) "orders" 5
              [sample_order; sample_bare; sample_order] eq_refl eq_refl)
    as (w' & E & K & F & Hdoc & _).
  exists w'. split; [exact E|]. split; [exact K|]. split; [exact F|].
  split; [exact (proj1 (Hdoc 0%nat sample_order eq_refl))|].
  split; [exact (proj1 (Hdoc 2%nat sample_order eq_refl))|].
  destruct (Hdoc 1%nat sample_bare eq_refl) as (_ & Hbare).
  destruct (Hbare eq_refl) as (Hout & before & after & Hs).
  split; [exact Hout|]. exists before, after. exact Hs.
Defined.

(** ** The text of the registry file *)

Lemma str_forall_app p (a b : string) :
  str_forall p (a ++ b)%string = str_forall p a && str_forall p b.
Proof. induction a as [|c a IH]; simpl; [reflexivity | now rewrite IH, andb_assoc]. Qed.

Lemma str_count_app c (a b : string) :
  str_count c (a ++ b)%string = (str_count c a + str_count c b)%nat.
Proof. induction a as [|x a IH]; simpl; [reflexivity | rewrite IH; lia]. Qed.

Lemma json_char_plain (c : ascii) : str_forall plain_ascii (json_char c) = true.
Proof. destruct c as [[] [] [] [] [] [] [] []]; reflexivity. Qed.

Lemma json_char_one_line (c : ascii) : str_count (ascii_of_nat 10) (json_char c) = O.
Proof. destruct c as [[] [] [] [] [] [] [] []]; reflexivity. Qed.

Lemma json_chars_plain (s : string) : str_forall plain_ascii (json_chars s) = true.
Proof.
  induction s as [|c s IH]; simpl; [reflexivity|].
  now rewrite str_forall_app, json_char_plain, IH.
Qed.

Lemma json_chars_one_line (s : string) : str_count (ascii_of_nat 10) (json_chars s) = O.
Proof.
  induction s as [|c s IH]; simpl; [reflexivity|].
  now rewrite str_count_app, json_char_one_line, IH.
Qed.

Lemma items_text_plain name rest : str_forall plain_ascii (items_text name rest) = true.
Proof.
  revert name. induction rest as [|next rest IH]; intros name; cbn [items_text].
  - rewrite str_forall_app, json_chars_plain. reflexivity.
  - rewrite str_forall_app, json_chars_plain.
    cbn [str_forall append nl andb]. rewrite IH. reflexivity.
Qed.

Lemma items_text_lines name rest :
  str_count (ascii_of_nat 10) (items_text name rest) = S (List.length rest).
Proof.
  revert name. induction rest as [|next rest IH]; intros name; cbn [items_text].
  - rewrite str_count_app, json_chars_one_line. reflexivity.
  - rewrite str_count_app, json_chars_one_line.
    cbn [str_count append nl Nat.add]. rewrite IH. reflexivity.
Qed.

(** X10.  The text json.dump writes for the collection names holds only
    line feeds and printable ASCII characters, whatever characters the
    names hold. *)
Theorem registry_dump_ascii (names : list string) :
  str_forall plain_ascii (json_dump names) = true.
Proof.
  destruct names as [|name rest]; [reflexivity|].
  rewrite json_dump_items. cbn [str_forall append nl andb].
  rewrite items_text_plain. reflexivity.
Qed.

(** X11.  The dump of no name has no line feed; the dump of n names, n
    above 0, has n + 1 line feeds, that is n + 2 lines: the brackets and
    one line per name, also when a name holds a line feed itself. *)
Theorem registry_dump_lines (names : list string) :
  str_count (ascii_of_nat 10) (json_dump names)
  = match names with
    | [] => O
    | _ :: _ => S (List.length names)
    end.
Proof.
  destruct names as [|name rest]; [reflexivity|].
  rewrite json_dump_items. cbn [str_count append nl].
  rewrite items_text_lines. reflexivity.
Qed.

(** X12.  Different lists of collection names give different texts in the
    file: the names, their order and their number can be told from it. *)
Theorem registry_dump_distinct (names1 names2 : list string) :
  names1 <> names2 -> json_dump names1 <> json_dump names2.
Proof.
  intros Hne H. apply Hne.
  apply (f_equal json_load) in H. rewrite !json_load_dump in H. congruence.
Qed.

Lemma registry_dump_distinct_witness :
  ["users"; "orders"] <> ["orders"; "users"] /\
  json_dump ["users"; "orders"] <> json_dump ["orders"; "users"].
Proof.
  assert (H : ["users"; "orders"] <> ["orders"; "users"]) by discriminate.
  split; [exact H | exact (registry_dump_distinct _ _ H)].
Defined.

(** ** How long a product field can get *)




(** ** The three outcomes of connecting *)

(** X14.  init_firestore ends in one of three ways and in none of them
    sends a query or touches the output file: it returns a client when an
    app exists or the certificate can be loaded, printing nothing; it
    returns None when no app exists and the credential file is missing,
    after printing where the file was expected; it raises, when the file is
    there but cannot be loaded, the very error credentials.Certificate
    raised on it, of whatever class, printing nothing and creating no
    app. *)
Theorem init_firestore_outcome (w : World) :
  exists r w',
    init_firestore w = (r, w') /\
    calls w' = calls w /\ out_file w' = out_file w /\ cred_file w' = cred_file w /\
    match r with
    | Ok (Some (Client session)) =>
        available w = true /\ app w' = Some session /\ stdout w' = stdout w
    | Ok None =>
        app w = None /\ cred_file w = CredMissing /\ app w' = None /\
        stdout w' = stdout w ++ [("❌ Credentials file not found at " ++ cred_path)%string]
    | Raise e =>
        app w = None /\ cred_file w = CredInvalid e /\
        app w' = None /\ stdout w' = stdout w /\
        auth_log w' = auth_log w ++ [PathChecked; CertificateRead]
    end.
Proof.
  destruct (app w) as [s|] eqn:Ha.
  - exists (Ok (Some (Client s))), w. rewrite (init_firestore_reuse w s Ha).
    unfold available. rewrite Ha. repeat split; reflexivity.
  - destruct (cred_file w) as [|e|] eqn:Hc.
    + eexists. eexists. split; [exact (init_firestore_missing w Ha Hc)|].
      cbn [calls out_file cred_file app stdout]. repeat split; auto.
    + eexists. eexists. split; [exact (init_firestore_invalid w e Ha Hc)|].
      cbn [calls out_file cred_file app stdout auth_log]. repeat split; auto.
    + eexists. eexists. split; [exact (init_firestore_fresh w Ha Hc)|].
      cbn [calls out_file cred_file app stdout]. unfold available. rewrite Ha, Hc.
      repeat split; auto.
Qed.

(** ** What the steps leave alone *)

(** X15.  Whatever the service answers, none of the four exploration
    steps writes the output file or changes the credential file; each only
    adds to the calls sent and to the lines printed, and an app that exists
    before a step is the app after it. *)
Theorem steps_leave_the_file (svc : Service) (w : World) :
  steady w (snd (explore_users_structure svc w)) /\
  steady w (snd (find_orders_by_criteria svc w)) /\
  (forall name limit, steady w (snd (explore_collection_structure svc name limit w))) /\
  steady w (snd (explore_products_structure svc w)).
Proof.
  split; [|split; [|split]].
  - destruct (explore_users_structure svc w) as [r w'] eqn:E.
    exact (frame_explore_users_structure svc w r w' E).
  - destruct (find_orders_by_criteria svc w) as [r w'] eqn:E.
    exact (frame_find_orders_by_criteria svc w r w' E).
  - intros name limit.
    destruct (explore_collection_structure svc name limit w) as [r w'] eqn:E.
    exact (frame_explore_collection_structure svc name limit w r w' E).
  - destruct (explore_products_structure svc w) as [r w'] eqn:E.
    exact (frame_explore_products_structure svc w r w' E).
Qed.

(** ** How much a run asks *)

(** Asked in turn, either no name yields a document or there is a first
    one that does. *)
Lemma first_hit_or_all_miss (svc : Service) (hist : list Call) (names : list string) :
  all_miss svc hist names = true \/
  exists pre name post,
    names = pre ++ name :: post /\
    all_miss svc hist pre = true /\
    has_document (query_get svc (hist ++ map probe pre) name 3) = true.
Proof.
  revert hist. induction names as [|c names IH]; intros hist; [now left|].
  destruct (has_document (query_get svc hist c 3)) eqn:Hd.
  - right. exists [], c, names. simpl. rewrite app_nil_r. auto.
  - destruct (IH (hist ++ [Get c 3])) as [Hm|(pre & name & post & -> & Hm & Hh)].
    + left. simpl. now rewrite Hd, Hm.
    + right. exists (c :: pre), name, post. simpl. rewrite Hd, Hm.
      rewrite <- app_assoc in Hh. auto.
Qed.

Lemma prefix_length {A} (pre post : list A) (x : A) (l : list A) :
  l = pre ++ x :: post -> (List.length (pre ++ [x]) <= List.length l)%nat.
Proof. intros ->. rewrite !length_app. simpl. lia. Qed.

(** X16.  Whatever the service and the world, a run sends at most nine
    requests, and each of them is the users query with limit 3, the
    products query with limit 5, a query of one of the five candidate names
    with limit 3, or the listing of the collections. *)
Theorem main_calls_bounded (svc : Service) (w : World) :
  exists w' added,
    main svc w = (Ok tt, w') /\
    calls w' = calls w ++ added /\
    (List.length added <= 9)%nat /\
    (forall c, In c added ->
       c = Get "users" 3 \/ c = Get "products" 5 \/ c = Collections \/
       exists name, In name collections_to_try /\ c = Get name 3).
Proof.
  destruct (connection_cases w) as [Hav|[Hoff|(why & Hb)]].
  - destruct (first_hit_or_all_miss svc (calls w ++ [Get "users" 3]) collections_to_try)
      as [Hm|(pre & name & post & Hsplit & Hm & Hh)].
    + destruct (main_not_found_run svc w Hav Hm) as (w' & E & K).
      eexists w', _. split; [exact E|]. split; [exact K|]. split; [simpl; lia|].
      intros c [<-|[<-|[<-|[<-|[<-|[<-|[<-|[<-|[]]]]]]]]]; auto;
        right; right; right; eexists; (split; [|reflexivity]); simpl; auto 10.
    + destruct (main_found_run svc w pre name post Hav Hsplit Hm Hh) as (w' & E & K).
      eexists w', _. split; [exact E|]. split; [exact K|].
      assert (Hin : forall n, In n (pre ++ [name]) -> In n collections_to_try).
      { intros n Hn. rewrite Hsplit. apply in_app_or in Hn as [Hn|[<-|[]]];
          apply in_or_app; [now left | right; now left]. }
      split.
      * pose proof (prefix_length pre post name _ Hsplit) as L.
        change (List.length collections_to_try) with 5%nat in L.
        rewrite !length_app, length_map. cbn [List.length]. lia.
      * intros c Hc. apply in_app_or in Hc as [[<-|[]]|Hc]; [now left|].
        apply in_app_or in Hc as [Hc|[<-|[<-|[<-|[]]]]]; auto.
        -- apply in_map_iff in Hc as (n & <- & Hn).
           right; right; right. exists n. split; [now apply Hin | reflexivity].
        -- right; right; right. exists name. split; [|reflexivity].
           apply Hin. apply in_or_app. right. now left.
  - destruct (offline_main svc w Hoff) as (w' & E & K & _).
    exists w', []. rewrite app_nil_r. split; [exact E|]. split; [exact K|].
    split; [simpl; lia | intros c []].
  - destruct (broken_main svc why w Hb) as (w' & E & _ & K & _).
    exists w', []. rewrite app_nil_r. split; [exact E|]. split; [exact K|].
    split; [simpl; lia | intros c []].
Qed.

Lemma main_calls_bounded_witness :
  exists w' added,
    main svc_order_third (fresh CredValid None) = (Ok tt, w') /\
    calls w' = added /\
    (List.length added <= 9)%nat /\
    (forall c, In c added ->
       c = Get "users" 3 \/ c = Get "products" 5 \/ c = Collections \/
       exists name, In name collections_to_try /\ c = Get name 3).
Proof.
  destruct (main_calls_bounded svc_order_third (fresh CredValid None))
    as (w' & added & E & K & L & H).
  exists w', added. split; [exact E|]. split; [exact K|]. split; [exact L | exact H].
Defined.

Lemma find_orders_result_witness :
  exists r w',
    find_orders_by_criteria svc_wide (fresh CredMissing None) = (Ok r, w') /\
    r = RList [] /\
    app (fresh CredMissing None) = None /\ cred_file (fresh CredMissing None) = CredMissing.
Proof.
  destruct (find_orders_result svc_wide (fresh CredMissing None))
    as (r & w' & E & _ & Hempty & _).
  assert (Hr : r = RList []).
  { assert (E0 : fst (find_orders_by_criteria svc_wide (fresh CredMissing None))
                 = Ok (RList [])) by reflexivity.
    rewrite E in E0. cbn [fst] in E0. congruence. }
  exists r, w'. split; [exact E|]. split; [exact Hr | exact (Hempty Hr)].
Defined.
